(** * ironic-redfish: the Redfish power and management adapters

    A shallow embedding of [ironic_redfish/power.py] (class [RedfishPower])
    and of the management adapter exercised by
    [ironic_redfish/tests/unit/test_management.py].

    - Python dictionaries are insertion-ordered association lists
      ([dict_get], [dict_setitem], [dict_keys], [dict_copy]).
    - An adapter method is a computation in [M]: it returns a value or
      raises an exception, and records the calls it issued (to the
      connection helper, to the remote system handle, to the logger).
    - The dictionary objects handed out by [get_properties] live in a store
      indexed by object identity, so that aliasing is visible. *)

From stdpp Require Import base list strings gmap.

(** ** Python dictionaries *)

Section pydict.
Context {K V : Type} `{EqDecision K}.

(** [d.get(k)] *)
Fixpoint dict_get (d : list (K * V)) (k : K) : option V :=
  match d with
  | [] => None
  | (k', v) :: d' => if decide (k' = k) then Some v else dict_get d' k
  end.

(** [d[k] = v]: an existing key keeps its position, a new key goes last. *)
Fixpoint dict_setitem (d : list (K * V)) (k : K) (v : V) : list (K * V) :=
  match d with
  | [] => [(k, v)]
  | (k', v') :: d' =>
      if decide (k' = k) then (k, v) :: d' else (k', v') :: dict_setitem d' k v
  end.

(** The display [{k1: v1, ..., kn: vn}]: items are stored left to right. *)
Definition dict_display (items : list (K * V)) : list (K * V) :=
  foldl (fun d kv => dict_setitem d kv.1 kv.2) [] items.

(** [list(d)]: the keys, in insertion order. *)
Definition dict_keys (d : list (K * V)) : list K := d.*1.

(** [d.copy()]: a new dictionary holding the same items. *)
Definition dict_copy (d : list (K * V)) : list (K * V) := d.
End pydict.

(** ** Vocabularies *)

(** [ironic.common.states]: the power states the source names, and any other
    value a caller may pass (a soft power state, [None], ...). *)
Module states.
Inductive t : Type :=
| POWER_ON
| POWER_OFF
| REBOOT
| OTHER (v : string).

#[global] Instance eq_dec : EqDecision t.
Proof. solve_decision. Defined.
End states.

(** [ironic.common.boot_devices] *)
Module boot_devices.
Inductive t : Type :=
| PXE
| DISK
| CDROM
| BIOS
| OTHER (v : string).

#[global] Instance eq_dec : EqDecision t.
Proof. solve_decision. Defined.
End boot_devices.

(** The constants of the [sushy] client library. *)
Module sushy.
(** What [system.power_state] reports. *)
Inductive power_state : Type :=
| SYSTEM_POWER_STATE_ON
| SYSTEM_POWER_STATE_POWERING_ON
| SYSTEM_POWER_STATE_OFF
| SYSTEM_POWER_STATE_POWERING_OFF
| SYSTEM_POWER_STATE_OTHER (v : string).

(** What [system.reset_system] accepts. *)
Inductive reset : Type :=
| RESET_ON
| RESET_FORCE_OFF
| RESET_FORCE_RESTART
| RESET_NMI.

Inductive boot_source_target : Type :=
| BOOT_SOURCE_TARGET_PXE
| BOOT_SOURCE_TARGET_HDD
| BOOT_SOURCE_TARGET_CD
| BOOT_SOURCE_TARGET_BIOS_SETUP
| BOOT_SOURCE_TARGET_OTHER (v : string).

Inductive boot_source_enabled : Type :=
| BOOT_SOURCE_ENABLED_ONCE
| BOOT_SOURCE_ENABLED_CONTINUOUS
| BOOT_SOURCE_ENABLED_OTHER (v : string).

#[global] Instance power_state_eq_dec : EqDecision power_state.
Proof. solve_decision. Defined.
#[global] Instance reset_eq_dec : EqDecision reset.
Proof. solve_decision. Defined.
#[global] Instance boot_source_target_eq_dec : EqDecision boot_source_target.
Proof. solve_decision. Defined.
#[global] Instance boot_source_enabled_eq_dec : EqDecision boot_source_enabled.
Proof. solve_decision. Defined.
End sushy.

(** ** Exceptions, results and recorded calls *)

(** [SushyError m] stands for any instance of [sushy.exceptions.SushyError]
    (or of a subclass) whose [str] is [m]; [RedfishError error] is
    [ironic_redfish.RedfishError(error=error)], built from the message alone;
    the other constructors are the exceptions of the host framework that pass
    through the adapters. *)
Inductive exn : Type :=
| SushyError (m : string)
| RedfishError (error : string)
| RedfishConnectionError (m : string)
| MissingParameterValue (m : string)
| InvalidParameterValue (m : string)
| ExclusiveLockRequired
| NotImplementedError
| OtherException (m : string).

#[global] Instance exn_eq_dec : EqDecision exn.
Proof. solve_decision. Defined.

Inductive result (A : Type) : Type :=
| Ok (a : A)
| Raise (e : exn).
Arguments Ok {A} a.
Arguments Raise {A} e.

Record Node : Type := { uuid : string }.

(** A task carries its node and whether its lock is shared. *)
Record Task : Type := { node : Node; shared : bool }.

Inductive Event : Type :=
| EvGetSystem (n : Node)
| EvResetSystem (value : option sushy.reset)
| EvSetSystemBootSource (target : option sushy.boot_source_target)
                        (enabled : option sushy.boot_source_enabled)
| EvLogError (msg : string).

(** The calls made on the remote system handle. *)
Definition is_handle_call (ev : Event) : bool :=
  match ev with
  | EvResetSystem _ | EvSetSystemBootSource _ _ => true
  | EvGetSystem _ | EvLogError _ => false
  end.

Definition handle_calls (tr : list Event) : list Event :=
  List.filter is_handle_call tr.

(** The arguments of the [reset_system] calls, in order. *)
Definition reset_calls (tr : list Event) : list (option sushy.reset) :=
  omap (fun ev => match ev with EvResetSystem v => Some v | _ => None end) tr.

(** The arguments of the [set_system_boot_source] calls, in order. *)
Definition boot_source_calls (tr : list Event)
  : list (option sushy.boot_source_target * option sushy.boot_source_enabled) :=
  omap (fun ev => match ev with
                  | EvSetSystemBootSource t e => Some (t, e)
                  | _ => None
                  end) tr.

(** ** The monad of adapter methods *)

Definition M (A : Type) : Type := result A * list Event.

Definition ret {A} (a : A) : M A := (Ok a, []).
Definition raise {A} (e : exn) : M A := (Raise e, []).
Definition emit (ev : Event) : M unit := (Ok tt, [ev]).

Definition bind {A B} (m : M A) (k : A -> M B) : M B :=
  match m with
  | (Ok a, tr) => let '(r, tr') := k a in (r, tr ++ tr')
  | (Raise e, tr) => (Raise e, tr)
  end.

(** The outcome of a call on a collaborator, after the call was recorded. *)
Definition lift {A} (r : result A) : M A := (r, []).

(** [try: body / except sushy.exceptions.SushyError as e: handler(str(e))] *)
Definition try_except_SushyError {A} (body : M A) (handler : string -> M A) : M A :=
  match body with
  | (Raise (SushyError m), tr) => let '(r, tr') := handler m in (r, tr ++ tr')
  | other => other
  end.

Declare Scope adapter_scope.
Delimit Scope adapter_scope with adapter.
Notation "x <- m ;; k" := (bind m (fun x => k))
  (at level 100, m at next level, right associativity) : adapter_scope.
Notation "m ;;; k" := (bind m (fun _ => k))
  (at level 100, right associativity) : adapter_scope.

(** ** The remote system handle *)

Record Boot : Type := {
  target : sushy.boot_source_target;
  enabled : sushy.boot_source_enabled
}.

(** What a handle answers: the two attribute reads and the two commands. *)
Record System : Type := {
  power_state : result sushy.power_state;
  boot : result Boot;
  reset_system : option sushy.reset -> result unit;
  set_system_boot_source :
    option sushy.boot_source_target -> option sushy.boot_source_enabled -> result unit
}.

Definition call_reset_system (system : System) (value : option sushy.reset) : M unit :=
  (emit (EvResetSystem value) ;;; lift (reset_system system value))%adapter.

Definition call_set_system_boot_source (system : System)
    (t : option sushy.boot_source_target) (e : option sushy.boot_source_enabled) : M unit :=
  (emit (EvSetSystemBootSource t e) ;;; lift (set_system_boot_source system t e))%adapter.

(** [LOG.error(msg)] *)
Definition LOG_error (msg : string) : M unit := emit (EvLogError msg).

(** [task_manager.require_exclusive_lock]: the wrapped method runs only when
    the task's lock is not shared. *)
Definition require_exclusive_lock {A} (f : Task -> M A) (task : Task) : M A :=
  if shared task then raise ExclusiveLockRequired else f task.

(** ** Dictionary objects

    A dictionary that is shared between callers is an object in a store,
    named by its identity; mutating it changes what every alias sees. *)

Definition loc : Type := positive.

Section store.
Context {K V : Type}.

(** A new object gets an identity no live object has. *)
Definition alloc (d : list (K * V)) (h : gmap loc (list (K * V)))
  : loc * gmap loc (list (K * V)) :=
  let l := fresh (dom h) in (l, <[l := d]> h).

(** An in-place update of the object [l] ([d[k] = v], [del d[k]],
    [d.clear()], [d.update(...)], ...): any function of its items. *)
Definition mutate (l : loc) (f : list (K * V) -> list (K * V))
    (h : gmap loc (list (K * V))) : gmap loc (list (K * V)) :=
  alter f l h.
End store.

(** ** [ironic_redfish/power.py] *)

Module power.

Definition GET_POWER_STATE_MAP : list (sushy.power_state * states.t) :=
  dict_display [
    (sushy.SYSTEM_POWER_STATE_ON, states.POWER_ON);
    (sushy.SYSTEM_POWER_STATE_POWERING_ON, states.POWER_ON);
    (sushy.SYSTEM_POWER_STATE_OFF, states.POWER_OFF);
    (sushy.SYSTEM_POWER_STATE_POWERING_OFF, states.POWER_OFF)
  ].

Definition SET_POWER_STATE_MAP : list (states.t * sushy.reset) :=
  dict_display [
    (states.POWER_ON, sushy.RESET_ON);
    (states.POWER_OFF, sushy.RESET_FORCE_OFF);
    (states.REBOOT, sushy.RESET_FORCE_RESTART)
  ].

(** ['Redfish set power state failed for node %(node)s. Error: %(error)s'] *)
Definition set_power_state_error_msg (n : Node) (e : string) : string :=
  "Redfish set power state failed for node " +:+ uuid n +:+ ". Error: " +:+ e.

(** ['Redfish reboot failed for node %(node)s. Error: %(error)s'] *)
Definition reboot_error_msg (n : Node) (e : string) : string :=
  "Redfish reboot failed for node " +:+ uuid n +:+ ". Error: " +:+ e.

Section RedfishPower.
(** The connection helper [ironic_redfish.utils], whose source is not
    part of the embedding: what its two functions answer for a node. *)
Variable parse_driver_info : Node -> result unit.
Variable get_system : Node -> result System.
(** [redfish_utils.COMMON_PROPERTIES]: the identity of the module-level
    table of property descriptions. *)
Variable COMMON_PROPERTIES : loc.

(** [return redfish_utils.COMMON_PROPERTIES.copy()]; the result is the
    identity of the dictionary returned and the store after the call. *)
Definition get_properties (h : gmap loc (list (string * string)))
  : option (loc * gmap loc (list (string * string))) :=
  d ← h !! COMMON_PROPERTIES;
  Some (alloc (dict_copy d) h).

Definition redfish_utils_get_system (n : Node) : M System :=
  (emit (EvGetSystem n) ;;; lift (get_system n))%adapter.

Definition validate (task : Task) : M unit :=
  lift (parse_driver_info (node task)).

Definition get_power_state (task : Task) : M (option states.t) :=
  (system <- redfish_utils_get_system (node task) ;;
   v <- lift (power_state system) ;;
   ret (dict_get GET_POWER_STATE_MAP v))%adapter.

Definition set_power_state (task : Task) (power_state : states.t)
    (timeout : option nat) : M unit :=
  require_exclusive_lock (fun task =>
    (system <- redfish_utils_get_system (node task) ;;
     try_except_SushyError
       (call_reset_system system (dict_get SET_POWER_STATE_MAP power_state))
       (fun e =>
          let error_msg := set_power_state_error_msg (node task) e in
          (LOG_error error_msg ;;;
           raise (RedfishError error_msg))))%adapter) task.

Definition reboot (task : Task) (timeout : option nat) : M unit :=
  require_exclusive_lock (fun task =>
    (system <- redfish_utils_get_system (node task) ;;
     v <- lift (power_state system) ;;
     let current_power_state := dict_get GET_POWER_STATE_MAP v in
     try_except_SushyError
       (if decide (current_power_state = Some states.POWER_ON)
        then call_reset_system system (dict_get SET_POWER_STATE_MAP states.REBOOT)
        else call_reset_system system (dict_get SET_POWER_STATE_MAP states.POWER_ON))
       (fun e =>
          let error_msg := reboot_error_msg (node task) e in
          (LOG_error error_msg ;;;
           raise (RedfishError error_msg))))%adapter) task.

Definition get_supported_power_states (task : Task) : M (list states.t) :=
  ret (dict_keys SET_POWER_STATE_MAP).
End RedfishPower.

End power.

(** ** The management adapter ([ironic_redfish/management.py]) *)

Module management.

(** Modelled from the spec: the boot-device table of the management
    adapter, whose source file is missing; section 4.2 gives it as
    {PXE->PXE, DISK->HDD, CDROM->CD, BIOS->BIOS_SETUP}, and the tests name
    the table keyed by abstract devices [BOOT_DEVICE_MAP_REV]. *)
Definition BOOT_DEVICE_MAP_REV : list (boot_devices.t * sushy.boot_source_target) :=
  dict_display [
    (boot_devices.PXE, sushy.BOOT_SOURCE_TARGET_PXE);
    (boot_devices.DISK, sushy.BOOT_SOURCE_TARGET_HDD);
    (boot_devices.CDROM, sushy.BOOT_SOURCE_TARGET_CD);
    (boot_devices.BIOS, sushy.BOOT_SOURCE_TARGET_BIOS_SETUP)
  ].

(** Modelled from the spec: the missing inverse boot-device table, "the
    inverse mapping" of section 4.2, obtained by swapping every item of
    the table above. *)
Definition BOOT_DEVICE_MAP : list (sushy.boot_source_target * boot_devices.t) :=
  dict_display (prod_swap <$> BOOT_DEVICE_MAP_REV).

(** Modelled from the spec: the missing persistence table, given in
    section 4.2 as {True->CONTINUOUS, False->ONCE}. *)
Definition BOOT_DEVICE_PERSISTENT_MAP_REV : list (bool * sushy.boot_source_enabled) :=
  dict_display [
    (true, sushy.BOOT_SOURCE_ENABLED_CONTINUOUS);
    (false, sushy.BOOT_SOURCE_ENABLED_ONCE)
  ].

(** Modelled from the spec: the message of the missing [set_boot_device];
    the spec asks for the node identifier, the underlying message and a
    prefix naming the operation, the tests for the prefix
    ['Redfish set boot device']; the layout is the power adapter's. *)
Definition set_boot_device_error_msg (n : Node) (e : string) : string :=
  "Redfish set boot device failed for node " +:+ uuid n +:+ ". Error: " +:+ e.

(** Modelled from the spec: the message of the missing [inject_nmi], as
    above with the prefix ['Redfish inject NMI'] of the tests. *)
Definition inject_nmi_error_msg (n : Node) (e : string) : string :=
  "Redfish inject NMI failed for node " +:+ uuid n +:+ ". Error: " +:+ e.

Section RedfishManagement.
Variable parse_driver_info : Node -> result unit.
Variable get_system : Node -> result System.

(** Modelled from the spec: the missing [validate], which delegates to
    the connection helper's parameter parser. *)
Definition validate (task : Task) : M unit :=
  lift (parse_driver_info (node task)).

(** Modelled from the spec: the missing [get_supported_boot_devices],
    the domain of the boot-device table in its fixed order. *)
Definition get_supported_boot_devices (task : Task) : M (list boot_devices.t) :=
  ret (dict_keys BOOT_DEVICE_MAP_REV).

(** Modelled from the spec: the missing [set_boot_device]: under the
    exclusive lock, translate [device] and [persistent] through the two
    tables, issue one combined boot-source write, and turn a vendor
    failure into a logged [RedfishError]. *)
Definition set_boot_device (task : Task) (device : boot_devices.t)
    (persistent : bool) : M unit :=
  require_exclusive_lock (fun task =>
    (system <- power.redfish_utils_get_system get_system (node task) ;;
     try_except_SushyError
       (call_set_system_boot_source system
          (dict_get BOOT_DEVICE_MAP_REV device)
          (dict_get BOOT_DEVICE_PERSISTENT_MAP_REV persistent))
       (fun e =>
          let error_msg := set_boot_device_error_msg (node task) e in
          (LOG_error error_msg ;;;
           raise (RedfishError error_msg))))%adapter) task.

(** Modelled from the spec: the missing [get_boot_device]: read the
    handle's boot attribute, translate the target through the inverse
    table and the enabled flag through {CONTINUOUS->True, everything
    else->False}. *)
Definition get_boot_device (task : Task) : M (option boot_devices.t * bool) :=
  (system <- power.redfish_utils_get_system get_system (node task) ;;
   b <- lift (boot system) ;;
   ret (dict_get BOOT_DEVICE_MAP (target b),
        bool_decide (enabled b = sushy.BOOT_SOURCE_ENABLED_CONTINUOUS)))%adapter.

(** Modelled from the spec: the missing [get_sensors_data], which always
    fails with a not-implemented condition. *)
Definition get_sensors_data (task : Task) : M unit :=
  raise NotImplementedError.

(** Modelled from the spec: the missing [inject_nmi]: under the
    exclusive lock, issue the NMI reset command unconditionally and turn
    a vendor failure into a logged [RedfishError]. *)
Definition inject_nmi (task : Task) : M unit :=
  require_exclusive_lock (fun task =>
    (system <- power.redfish_utils_get_system get_system (node task) ;;
     try_except_SushyError
       (call_reset_system system (Some sushy.RESET_NMI))
       (fun e =>
          let error_msg := inject_nmi_error_msg (node task) e in
          (LOG_error error_msg ;;;
           raise (RedfishError error_msg))))%adapter) task.
End RedfishManagement.

End management.

(** ** Exceptions with their context

    Python 3 links an exception raised inside an [except] block to the
    exception being handled there: the new exception's [__context__] is the
    handled one, and its [__cause__] stays [None] unless the statement is
    [raise ... from ...]. The methods above keep the exception raised and
    nothing of these two attributes; the module below embeds the command
    methods once more, keeping them. *)

(** An exception as the caller receives it. *)
Record Raised : Type := {
  raised_exception : exn;
  raised_cause : option exn;
  raised_context : option exn
}.

Inductive outcome (A : Type) : Type :=
| Returned (a : A)
| Raising (r : Raised).
Arguments Returned {A} a.
Arguments Raising {A} r.

Module chaining.

Definition M (A : Type) : Type := outcome A * list Event.

Definition ret {A} (a : A) : M A := (Returned a, []).
Definition emit (ev : Event) : M unit := (Returned tt, [ev]).

(** [raise e], executed while [handling] is being handled (if any). *)
Definition raise {A} (handling : option exn) (e : exn) : M A :=
  (Raising {| raised_exception := e;
              raised_cause := None;
              raised_context := handling |}, []).

Definition bind {A B} (m : M A) (k : A -> M B) : M B :=
  match m with
  | (Returned a, tr) => let '(o, tr') := k a in (o, tr ++ tr')
  | (Raising r, tr) => (Raising r, tr)
  end.

(** The outcome of a call on a collaborator; an exception coming out of it
    arrives as it was raised there, outside any handler of the adapter. *)
Definition lift {A} (r : result A) : M A :=
  match r with
  | Ok a => (Returned a, [])
  | Raise e => (Raising {| raised_exception := e;
                           raised_cause := None;
                           raised_context := None |}, [])
  end.

(** [try: body / except sushy.exceptions.SushyError as e: handler(str(e))] *)
Definition try_except_SushyError {A} (body : M A) (handler : string -> M A) : M A :=
  match body with
  | (Raising r, tr) =>
      match raised_exception r with
      | SushyError m => let '(o, tr') := handler m in (o, tr ++ tr')
      | _ => (Raising r, tr)
      end
  | other => other
  end.

Declare Scope chaining_scope.
Delimit Scope chaining_scope with chaining.
Notation "x <- m ;; k" := (bind m (fun x => k))
  (at level 100, m at next level, right associativity) : chaining_scope.
Notation "m ;;; k" := (bind m (fun _ => k))
  (at level 100, right associativity) : chaining_scope.

Definition call_reset_system (system : System) (value : option sushy.reset) : M unit :=
  (emit (EvResetSystem value) ;;; lift (reset_system system value))%chaining.

Definition call_set_system_boot_source (system : System)
    (t : option sushy.boot_source_target) (e : option sushy.boot_source_enabled) : M unit :=
  (emit (EvSetSystemBootSource t e) ;;; lift (set_system_boot_source system t e))%chaining.

Definition LOG_error (msg : string) : M unit := emit (EvLogError msg).

Definition require_exclusive_lock {A} (f : Task -> M A) (task : Task) : M A :=
  if shared task then raise None ExclusiveLockRequired else f task.

(** What is left of an outcome when the two attributes are dropped. *)
Definition forget {A} (m : M A) : result A * list Event :=
  match m with
  | (Returned a, tr) => (Ok a, tr)
  | (Raising r, tr) => (Raise (raised_exception r), tr)
  end.

Section commands.
Variable get_system : Node -> result System.

Definition redfish_utils_get_system (n : Node) : M System :=
  (emit (EvGetSystem n) ;;; lift (get_system n))%chaining.

Definition set_power_state (task : Task) (power_state : states.t)
    (timeout : option nat) : M unit :=
  require_exclusive_lock (fun task =>
    (system <- redfish_utils_get_system (node task) ;;
     try_except_SushyError
       (call_reset_system system (dict_get power.SET_POWER_STATE_MAP power_state))
       (fun e =>
          let error_msg := power.set_power_state_error_msg (node task) e in
          (LOG_error error_msg ;;;
           raise (Some (SushyError e)) (RedfishError error_msg))))%chaining) task.

Definition reboot (task : Task) (timeout : option nat) : M unit :=
  require_exclusive_lock (fun task =>
    (system <- redfish_utils_get_system (node task) ;;
     v <- lift (power_state system) ;;
     let current_power_state := dict_get power.GET_POWER_STATE_MAP v in
     try_except_SushyError
       (if decide (current_power_state = Some states.POWER_ON)
        then call_reset_system system
               (dict_get power.SET_POWER_STATE_MAP states.REBOOT)
        else call_reset_system system
               (dict_get power.SET_POWER_STATE_MAP states.POWER_ON))
       (fun e =>
          let error_msg := power.reboot_error_msg (node task) e in
          (LOG_error error_msg ;;;
           raise (Some (SushyError e)) (RedfishError error_msg))))%chaining) task.

(** Modelled from the spec: the missing [set_boot_device] of the management
    adapter, as [management.set_boot_device] above: translate through the two
    tables, issue one boot-source write, turn a vendor failure into a logged
    [RedfishError]. *)
Definition set_boot_device (task : Task) (device : boot_devices.t)
    (persistent : bool) : M unit :=
  require_exclusive_lock (fun task =>
    (system <- redfish_utils_get_system (node task) ;;
     try_except_SushyError
       (call_set_system_boot_source system
          (dict_get management.BOOT_DEVICE_MAP_REV device)
          (dict_get management.BOOT_DEVICE_PERSISTENT_MAP_REV persistent))
       (fun e =>
          let error_msg := management.set_boot_device_error_msg (node task) e in
          (LOG_error error_msg ;;;
           raise (Some (SushyError e)) (RedfishError error_msg))))%chaining) task.

(** Modelled from the spec: the missing [inject_nmi] of the management
    adapter, as [management.inject_nmi] above: issue the NMI reset command
    and turn a vendor failure into a logged [RedfishError]. *)
Definition inject_nmi (task : Task) : M unit :=
  require_exclusive_lock (fun task =>
    (system <- redfish_utils_get_system (node task) ;;
     try_except_SushyError
       (call_reset_system system (Some sushy.RESET_NMI))
       (fun e =>
          let error_msg := management.inject_nmi_error_msg (node task) e in
          (LOG_error error_msg ;;;
           raise (Some (SushyError e)) (RedfishError error_msg))))%chaining) task.
End commands.

End chaining.

(** ** Callers of [get_properties]

    A caller keeps the dictionaries it was handed, in the order of the
    calls, and may update any of them in place between two calls. *)

Inductive client_step : Type :=
| CallGetProperties
| MutateReturned (i : nat) (f : list (string * string) -> list (string * string)).

Definition client_step_run (common : loc) (s : client_step)
    (st : gmap loc (list (string * string)) * list loc)
  : option (gmap loc (list (string * string)) * list loc) :=
  match s with
  | CallGetProperties =>
      r ← power.get_properties common st.1;
      Some (r.2, st.2 ++ [r.1])
  | MutateReturned i f =>
      match st.2 !! i with
      | Some l => Some (mutate l f st.1, st.2)
      | None => Some st
      end
  end.

Fixpoint client_run (common : loc) (steps : list client_step)
    (st : gmap loc (list (string * string)) * list loc)
  : option (gmap loc (list (string * string)) * list loc) :=
  match steps with
  | [] => Some st
  | s :: steps' => st' ← client_step_run common s st; client_run common steps' st'
  end.

(** ** Concrete nodes and handles *)

Definition example_node : Node := {| uuid := "1be26c0b-03f2-4d2e-ae87-c02d7f33c123" |}.

Definition example_task : Task := {| node := example_node; shared := false |}.

Definition example_boot : Boot :=
  {| target := sushy.BOOT_SOURCE_TARGET_PXE;
     enabled := sushy.BOOT_SOURCE_ENABLED_CONTINUOUS |}.

(** A handle that reports [ps] and accepts every command. *)
Definition fake_system (ps : sushy.power_state) : System :=
  {| power_state := Ok ps;
     boot := Ok example_boot;
     reset_system := fun _ => Ok tt;
     set_system_boot_source := fun _ _ => Ok tt |}.

(** A handle that reports [ps] and whose commands fail with [SushyError m]. *)
Definition failing_system (ps : sushy.power_state) (m : string) : System :=
  {| power_state := Ok ps;
     boot := Ok example_boot;
     reset_system := fun _ => Raise (SushyError m);
     set_system_boot_source := fun _ _ => Raise (SushyError m) |}.

(** A handle whose power-state read fails with [SushyError m]. *)
Definition unreadable_system (m : string) : System :=
  {| power_state := Raise (SushyError m);
     boot := Ok example_boot;
     reset_system := fun _ => Ok tt;
     set_system_boot_source := fun _ _ => Ok tt |}.

Definition example_properties : list (string * string) :=
  [("redfish_address", "The URL address to the Redfish controller.");
   ("redfish_system_id", "The canonical path to the System resource.")]%string.

(** * Properties *)

(** ** The tables *)

Lemma GET_POWER_STATE_MAP_get (v : sushy.power_state) :
  dict_get power.GET_POWER_STATE_MAP v =
    match v with
    | sushy.SYSTEM_POWER_STATE_ON | sushy.SYSTEM_POWER_STATE_POWERING_ON =>
        Some states.POWER_ON
    | sushy.SYSTEM_POWER_STATE_OFF | sushy.SYSTEM_POWER_STATE_POWERING_OFF =>
        Some states.POWER_OFF
    | sushy.SYSTEM_POWER_STATE_OTHER _ => None
    end.
Proof. by destruct v. Qed.

Lemma SET_POWER_STATE_MAP_get (s : states.t) :
  dict_get power.SET_POWER_STATE_MAP s =
    match s with
    | states.POWER_ON => Some sushy.RESET_ON
    | states.POWER_OFF => Some sushy.RESET_FORCE_OFF
    | states.REBOOT => Some sushy.RESET_FORCE_RESTART
    | states.OTHER _ => None
    end.
Proof. by destruct s. Qed.

(** ** A guarded command

    What [try: system.reset_system(value) / except SushyError] leaves behind,
    by the answer of the handle. *)

Lemma guarded_reset_outcome (system : System) (value : option sushy.reset)
    (msg : string -> string) :
  try_except_SushyError (call_reset_system system value)
    (fun e => (LOG_error (msg e) ;;; raise (RedfishError (msg e)))%adapter) =
  match reset_system system value with
  | Ok u => (Ok u, [EvResetSystem value])
  | Raise (SushyError m) =>
      (Raise (RedfishError (msg m)), [EvResetSystem value; EvLogError (msg m)])
  | Raise e => (Raise e, [EvResetSystem value])
  end.
Proof.
  unfold call_reset_system, emit, lift, bind.
  destruct (reset_system system value) as [u|e]; [done|].
  by destruct e.
Qed.

Lemma guarded_boot_source_outcome (system : System)
    (t : option sushy.boot_source_target) (en : option sushy.boot_source_enabled)
    (msg : string -> string) :
  try_except_SushyError (call_set_system_boot_source system t en)
    (fun e => (LOG_error (msg e) ;;; raise (RedfishError (msg e)))%adapter) =
  match set_system_boot_source system t en with
  | Ok u => (Ok u, [EvSetSystemBootSource t en])
  | Raise (SushyError m) =>
      (Raise (RedfishError (msg m)), [EvSetSystemBootSource t en; EvLogError (msg m)])
  | Raise e => (Raise e, [EvSetSystemBootSource t en])
  end.
Proof.
  unfold call_set_system_boot_source, emit, lift, bind.
  destruct (set_system_boot_source system t en) as [u|e]; [done|].
  by destruct e.
Qed.

(** ** Resolving the handle *)

Lemma get_system_then {B} (get_system : Node -> result System) (n : Node)
    (system : System) (k : System -> M B) :
  get_system n = Ok system ->
  (s <- power.redfish_utils_get_system get_system n ;; k s)%adapter =
    ((k system).1, EvGetSystem n :: (k system).2).
Proof.
  intros Hgs. unfold power.redfish_utils_get_system, bind, emit, lift.
  rewrite Hgs. by destruct (k system).
Qed.

Lemma get_system_fails {B} (get_system : Node -> result System) (n : Node)
    (e : exn) (k : System -> M B) :
  get_system n = Raise e ->
  (s <- power.redfish_utils_get_system get_system n ;; k s)%adapter =
    (Raise e, [EvGetSystem n]).
Proof.
  intros Hgs. unfold power.redfish_utils_get_system, bind, emit, lift.
  by rewrite Hgs.
Qed.

(** ** The methods, by the answers of their collaborators *)

Section outcomes.
Variable get_system : Node -> result System.
Variable task : Task.
Variable system : System.
Hypothesis exclusive : shared task = false.
Hypothesis connected : get_system (node task) = Ok system.

Lemma set_power_state_outcome (target : states.t) (timeout : option nat) :
  power.set_power_state get_system task target timeout =
  match reset_system system (dict_get power.SET_POWER_STATE_MAP target) with
  | Ok u =>
      (Ok u, [EvGetSystem (node task);
              EvResetSystem (dict_get power.SET_POWER_STATE_MAP target)])
  | Raise (SushyError m) =>
      (Raise (RedfishError (power.set_power_state_error_msg (node task) m)),
       [EvGetSystem (node task);
        EvResetSystem (dict_get power.SET_POWER_STATE_MAP target);
        EvLogError (power.set_power_state_error_msg (node task) m)])
  | Raise e =>
      (Raise e, [EvGetSystem (node task);
                 EvResetSystem (dict_get power.SET_POWER_STATE_MAP target)])
  end.
Proof.
  unfold power.set_power_state, require_exclusive_lock.
  rewrite exclusive, (get_system_then _ _ system) by done. cbn zeta.
  rewrite (guarded_reset_outcome system _
             (power.set_power_state_error_msg (node task))).
  destruct (reset_system system _) as [u|e]; [done|].
  by destruct e.
Qed.

Lemma reboot_outcome (v : sushy.power_state) (timeout : option nat) :
  power_state system = Ok v ->
  power.reboot get_system task timeout =
  let value := Some match v with
                     | sushy.SYSTEM_POWER_STATE_ON => sushy.RESET_FORCE_RESTART
                     | sushy.SYSTEM_POWER_STATE_POWERING_ON => sushy.RESET_FORCE_RESTART
                     | _ => sushy.RESET_ON
                     end in
  match reset_system system value with
  | Ok u => (Ok u, [EvGetSystem (node task); EvResetSystem value])
  | Raise (SushyError m) =>
      (Raise (RedfishError (power.reboot_error_msg (node task) m)),
       [EvGetSystem (node task); EvResetSystem value;
        EvLogError (power.reboot_error_msg (node task) m)])
  | Raise e => (Raise e, [EvGetSystem (node task); EvResetSystem value])
  end.
Proof.
  intros Hread.
  unfold power.reboot, require_exclusive_lock.
  rewrite exclusive, (get_system_then _ _ system) by done.
  rewrite Hread. cbn [lift bind app]. cbn zeta.
  rewrite GET_POWER_STATE_MAP_get.
  destruct v; case_decide; try done;
    rewrite (guarded_reset_outcome system _ (power.reboot_error_msg (node task)));
    rewrite SET_POWER_STATE_MAP_get; cbn zeta;
    (destruct (reset_system system _) as [u|e]; [done|]; by destruct e).
Qed.

Lemma get_power_state_outcome :
  power.get_power_state get_system task =
  match power_state system with
  | Ok v => (Ok (dict_get power.GET_POWER_STATE_MAP v), [EvGetSystem (node task)])
  | Raise e => (Raise e, [EvGetSystem (node task)])
  end.
Proof.
  unfold power.get_power_state.
  rewrite (get_system_then _ _ system) by done.
  by destruct (power_state system).
Qed.
End outcomes.

(** Without the exclusive lock a command method raises before it resolves
    the handle; a failure of the connection helper reaches the caller as it
    is, and no call is made on a handle. *)

Lemma shared_lock_refused (get_system : Node -> result System) (task : Task)
    (target : states.t) (timeout : option nat) :
  shared task = true ->
  power.set_power_state get_system task target timeout = (Raise ExclusiveLockRequired, []) ∧
  power.reboot get_system task timeout = (Raise ExclusiveLockRequired, []).
Proof.
  intros Hshared. unfold power.set_power_state, power.reboot, require_exclusive_lock.
  by rewrite Hshared.
Qed.

Lemma connection_failure_surfaces (get_system : Node -> result System) (task : Task)
    (e : exn) (target : states.t) (timeout : option nat) :
  shared task = false ->
  get_system (node task) = Raise e ->
  power.get_power_state get_system task = (Raise e, [EvGetSystem (node task)]) ∧
  power.set_power_state get_system task target timeout =
    (Raise e, [EvGetSystem (node task)]) ∧
  power.reboot get_system task timeout = (Raise e, [EvGetSystem (node task)]).
Proof.
  intros Hlock Hgs.
  unfold power.get_power_state, power.set_power_state, power.reboot,
    require_exclusive_lock.
  rewrite Hlock. by rewrite !(get_system_fails _ _ e).
Qed.

(** ** The unit tests, replayed

    [fake_system] plays the part of [mock.Mock()], [failing_system] that of a
    mock whose commands have [MockedSushyError] as side effect. *)

Example test_get_power_state :
  (fun current =>
     power.get_power_state (fun _ => Ok (fake_system current)) example_task)
  <$> [sushy.SYSTEM_POWER_STATE_ON; sushy.SYSTEM_POWER_STATE_POWERING_ON;
       sushy.SYSTEM_POWER_STATE_OFF; sushy.SYSTEM_POWER_STATE_POWERING_OFF] =
  (fun expected => (Ok (Some expected), [EvGetSystem example_node]))
  <$> [states.POWER_ON; states.POWER_ON; states.POWER_OFF; states.POWER_OFF].
Proof. reflexivity. Qed.

Example test_set_power_state :
  (fun target =>
     reset_calls
       (power.set_power_state
          (fun _ => Ok (fake_system sushy.SYSTEM_POWER_STATE_ON))
          example_task target None).2)
  <$> [states.POWER_ON; states.POWER_OFF; states.REBOOT] =
  [[Some sushy.RESET_ON]; [Some sushy.RESET_FORCE_OFF];
   [Some sushy.RESET_FORCE_RESTART]].
Proof. reflexivity. Qed.

Example test_set_power_state_fail :
  power.set_power_state
    (fun _ => Ok (failing_system sushy.SYSTEM_POWER_STATE_ON ""))
    example_task states.POWER_ON None =
  (Raise (RedfishError
            "Redfish set power state failed for node 1be26c0b-03f2-4d2e-ae87-c02d7f33c123. Error: "),
   [EvGetSystem example_node; EvResetSystem (Some sushy.RESET_ON);
    EvLogError
      "Redfish set power state failed for node 1be26c0b-03f2-4d2e-ae87-c02d7f33c123. Error: "]).
Proof. reflexivity. Qed.

Example test_reboot :
  (fun current =>
     reset_calls
       (power.reboot (fun _ => Ok (fake_system current)) example_task None).2)
  <$> [sushy.SYSTEM_POWER_STATE_ON; sushy.SYSTEM_POWER_STATE_OFF] =
  [[Some sushy.RESET_FORCE_RESTART]; [Some sushy.RESET_ON]].
Proof. reflexivity. Qed.

Example test_reboot_fail :
  power.reboot (fun _ => Ok (failing_system sushy.SYSTEM_POWER_STATE_ON ""))
    example_task None =
  (Raise (RedfishError
            "Redfish reboot failed for node 1be26c0b-03f2-4d2e-ae87-c02d7f33c123. Error: "),
   [EvGetSystem example_node; EvResetSystem (Some sushy.RESET_FORCE_RESTART);
    EvLogError
      "Redfish reboot failed for node 1be26c0b-03f2-4d2e-ae87-c02d7f33c123. Error: "]).
Proof. reflexivity. Qed.

Example test_get_supported_power_states :
  power.get_supported_power_states example_task =
    (Ok (dict_keys power.SET_POWER_STATE_MAP), []).
Proof. reflexivity. Qed.

Example test_get_supported_boot_devices :
  management.get_supported_boot_devices example_task =
    (Ok (dict_keys management.BOOT_DEVICE_MAP_REV), []).
Proof. reflexivity. Qed.

Example test_set_boot_device :
  (fun device =>
     boot_source_calls
       (management.set_boot_device
          (fun _ => Ok (fake_system sushy.SYSTEM_POWER_STATE_ON))
          example_task device false).2)
  <$> [boot_devices.PXE; boot_devices.DISK; boot_devices.CDROM; boot_devices.BIOS] =
  (fun expected => [(Some expected, Some sushy.BOOT_SOURCE_ENABLED_ONCE)])
  <$> [sushy.BOOT_SOURCE_TARGET_PXE; sushy.BOOT_SOURCE_TARGET_HDD;
       sushy.BOOT_SOURCE_TARGET_CD; sushy.BOOT_SOURCE_TARGET_BIOS_SETUP].
Proof. reflexivity. Qed.

Example test_set_boot_device_persistency :
  (fun persistent =>
     boot_source_calls
       (management.set_boot_device
          (fun _ => Ok (fake_system sushy.SYSTEM_POWER_STATE_ON))
          example_task boot_devices.PXE persistent).2)
  <$> [true; false] =
  (fun expected => [(Some sushy.BOOT_SOURCE_TARGET_PXE, Some expected)])
  <$> [sushy.BOOT_SOURCE_ENABLED_CONTINUOUS; sushy.BOOT_SOURCE_ENABLED_ONCE].
Proof. reflexivity. Qed.

Example test_set_boot_device_fail :
  ∃ error : string,
    (management.set_boot_device
       (fun _ => Ok (failing_system sushy.SYSTEM_POWER_STATE_ON ""))
       example_task boot_devices.PXE false).1 =
      Raise (RedfishError ("Redfish set boot device" +:+ error)) ∧
    boot_source_calls
      (management.set_boot_device
         (fun _ => Ok (failing_system sushy.SYSTEM_POWER_STATE_ON ""))
         example_task boot_devices.PXE false).2 =
      [(Some sushy.BOOT_SOURCE_TARGET_PXE, Some sushy.BOOT_SOURCE_ENABLED_ONCE)].
Proof. eexists. split; reflexivity. Qed.

Example test_get_boot_device :
  management.get_boot_device
    (fun _ => Ok (fake_system sushy.SYSTEM_POWER_STATE_ON)) example_task =
  (Ok (Some boot_devices.PXE, true), [EvGetSystem example_node]).
Proof. reflexivity. Qed.

Example test_get_sensors_data :
  management.get_sensors_data example_task = (Raise NotImplementedError, []).
Proof. reflexivity. Qed.

Example test_inject_nmi :
  reset_calls
    (management.inject_nmi
       (fun _ => Ok (fake_system sushy.SYSTEM_POWER_STATE_ON)) example_task).2 =
  [Some sushy.RESET_NMI].
Proof. reflexivity. Qed.

Example test_inject_nmi_fail :
  ∃ error : string,
    (management.inject_nmi
       (fun _ => Ok (failing_system sushy.SYSTEM_POWER_STATE_ON "")) example_task).1 =
      Raise (RedfishError ("Redfish inject NMI" +:+ error)) ∧
    reset_calls
      (management.inject_nmi
         (fun _ => Ok (failing_system sushy.SYSTEM_POWER_STATE_ON "")) example_task).2 =
      [Some sushy.RESET_NMI].
Proof. eexists. split; reflexivity. Qed.

(** ** The power adapter *)

(** C3: when the handle reports one of the four vendor power states,
    [get_power_state] returns the abstract state the fixed table gives for it
    (ON and POWERING_ON give POWER_ON, OFF and POWERING_OFF give POWER_OFF),
    and for any other reported value it returns [None]; the only call made
    is the one resolving the handle. *)
Theorem get_power_state_table (get_system : Node -> result System) (task : Task)
    (system : System) (v : sushy.power_state) :
  get_system (node task) = Ok system ->
  power_state system = Ok v ->
  power.get_power_state get_system task =
    (Ok match v with
        | sushy.SYSTEM_POWER_STATE_ON => Some states.POWER_ON
        | sushy.SYSTEM_POWER_STATE_POWERING_ON => Some states.POWER_ON
        | sushy.SYSTEM_POWER_STATE_OFF => Some states.POWER_OFF
        | sushy.SYSTEM_POWER_STATE_POWERING_OFF => Some states.POWER_OFF
        | sushy.SYSTEM_POWER_STATE_OTHER _ => None
        end,
     [EvGetSystem (node task)]).
Proof.
  intros Hgs Hread.
  rewrite (get_power_state_outcome _ _ system Hgs), Hread.
  by rewrite GET_POWER_STATE_MAP_get.
Qed.

Lemma get_power_state_table_witness :
  power.get_power_state
    (fun _ => Ok (fake_system sushy.SYSTEM_POWER_STATE_POWERING_OFF)) example_task =
    (Ok (Some states.POWER_OFF), [EvGetSystem example_node]).
Proof.
  apply (get_power_state_table _ example_task
           (fake_system sushy.SYSTEM_POWER_STATE_POWERING_OFF)
           sushy.SYSTEM_POWER_STATE_POWERING_OFF); reflexivity.
Defined.

(** C4: for each abstract target state among ON, OFF and REBOOT,
    [set_power_state], called under the exclusive lock on a node whose handle
    resolves, issues exactly one call on the handle: [reset_system] with the
    mapped command (ON gives RESET_ON, OFF gives RESET_FORCE_OFF, REBOOT gives
    RESET_FORCE_RESTART); and when that call returns, so does the method. *)
Theorem set_power_state_issues_mapped_reset (get_system : Node -> result System)
    (task : Task) (system : System) (target : states.t) (cmd : sushy.reset)
    (timeout : option nat) :
  shared task = false ->
  get_system (node task) = Ok system ->
  (target, cmd) ∈ [(states.POWER_ON, sushy.RESET_ON);
                   (states.POWER_OFF, sushy.RESET_FORCE_OFF);
                   (states.REBOOT, sushy.RESET_FORCE_RESTART)] ->
  handle_calls (power.set_power_state get_system task target timeout).2 =
    [EvResetSystem (Some cmd)] ∧
  reset_calls (power.set_power_state get_system task target timeout).2 = [Some cmd] ∧
  (reset_system system (Some cmd) = Ok () ->
   power.set_power_state get_system task target timeout =
     (Ok (), [EvGetSystem (node task); EvResetSystem (Some cmd)])).
Proof.
  intros Hlock Hgs Hin.
  rewrite (set_power_state_outcome _ _ system Hlock Hgs).
  assert (dict_get power.SET_POWER_STATE_MAP target = Some cmd) as ->.
  { rewrite !elem_of_cons, elem_of_nil in Hin.
    destruct Hin as [[= -> ->]|[[= -> ->]|[[= -> ->]|[]]]]; reflexivity. }
  destruct (reset_system system (Some cmd)) as [[]|e].
  - done.
  - by destruct e.
Qed.

Lemma set_power_state_issues_mapped_reset_witness :
  handle_calls
    (power.set_power_state (fun _ => Ok (fake_system sushy.SYSTEM_POWER_STATE_ON))
       example_task states.POWER_OFF None).2 =
    [EvResetSystem (Some sushy.RESET_FORCE_OFF)].
Proof.
  apply (set_power_state_issues_mapped_reset _ example_task
           (fake_system sushy.SYSTEM_POWER_STATE_ON)
           states.POWER_OFF sushy.RESET_FORCE_OFF None).
  - reflexivity.
  - reflexivity.
  - apply list_elem_of_further, list_elem_of_here.
Defined.

(** C1, as the code has it: [reboot], called under the exclusive lock on a
    node whose handle resolves and reports a power state, issues exactly one
    [reset_system] call and no other call on the handle. The command is
    RESET_FORCE_RESTART when the reported state translates to POWER_ON, that
    is for ON and for POWERING_ON, and RESET_ON for every other reported
    value (OFF, POWERING_OFF, or a value outside the table). *)
Theorem reboot_issues_one_reset (get_system : Node -> result System)
    (task : Task) (system : System) (v : sushy.power_state) (timeout : option nat) :
  shared task = false ->
  get_system (node task) = Ok system ->
  power_state system = Ok v ->
  let cmd := match v with
             | sushy.SYSTEM_POWER_STATE_ON => sushy.RESET_FORCE_RESTART
             | sushy.SYSTEM_POWER_STATE_POWERING_ON => sushy.RESET_FORCE_RESTART
             | _ => sushy.RESET_ON
             end in
  reset_calls (power.reboot get_system task timeout).2 = [Some cmd] ∧
  handle_calls (power.reboot get_system task timeout).2 = [EvResetSystem (Some cmd)].
Proof.
  intros Hlock Hgs Hread cmd.
  rewrite (reboot_outcome _ _ system Hlock Hgs v timeout Hread).
  fold cmd. cbn zeta.
  destruct (reset_system system (Some cmd)) as [[]|e]; [done|].
  by destruct e.
Qed.

Lemma reboot_issues_one_reset_witness :
  reset_calls
    (power.reboot (fun _ => Ok (fake_system sushy.SYSTEM_POWER_STATE_OFF))
       example_task None).2 = [Some sushy.RESET_ON].
Proof.
  apply (reboot_issues_one_reset _ example_task
           (fake_system sushy.SYSTEM_POWER_STATE_OFF)
           sushy.SYSTEM_POWER_STATE_OFF None); reflexivity.
Defined.

(** C1, as stated, fails: POWERING_ON is a vendor value other than ON, yet
    on a handle that reports it [reboot] issues RESET_FORCE_RESTART, not
    RESET_ON. *)
Lemma reboot_powering_on_counterexample :
  sushy.SYSTEM_POWER_STATE_POWERING_ON ≠ sushy.SYSTEM_POWER_STATE_ON ∧
  power.reboot (fun _ => Ok (fake_system sushy.SYSTEM_POWER_STATE_POWERING_ON))
    example_task None =
    (Ok (), [EvGetSystem example_node; EvResetSystem (Some sushy.RESET_FORCE_RESTART)]) ∧
  reset_calls
    (power.reboot (fun _ => Ok (fake_system sushy.SYSTEM_POWER_STATE_POWERING_ON))
       example_task None).2 ≠ [Some sushy.RESET_ON].
Proof. split; [done|]. split; [reflexivity|]. by vm_compute. Qed.

(** C8: the two translations never fail; an input outside the table
    translates to [None]. For an abstract power state other than ON, OFF and
    REBOOT, [set_power_state] (under the exclusive lock, handle resolved)
    issues its one [reset_system] call with [None], and raises nothing unless
    that call raises; for a reported power state other than the four of the
    table, [get_power_state] returns [None]. *)
Theorem unmapped_translations_yield_None (get_system : Node -> result System)
    (task : Task) (system : System) :
  get_system (node task) = Ok system ->
  (∀ (target : states.t) (timeout : option nat),
     shared task = false ->
     target ∉ [states.POWER_ON; states.POWER_OFF; states.REBOOT] ->
     dict_get power.SET_POWER_STATE_MAP target = None ∧
     handle_calls (power.set_power_state get_system task target timeout).2 =
       [EvResetSystem None] ∧
     (reset_system system None = Ok () ->
      power.set_power_state get_system task target timeout =
        (Ok (), [EvGetSystem (node task); EvResetSystem None])) ∧
     (∀ e, (power.set_power_state get_system task target timeout).1 = Raise e ->
           ∃ e', reset_system system None = Raise e')) ∧
  (∀ v : sushy.power_state,
     power_state system = Ok v ->
     v ∉ [sushy.SYSTEM_POWER_STATE_ON; sushy.SYSTEM_POWER_STATE_POWERING_ON;
          sushy.SYSTEM_POWER_STATE_OFF; sushy.SYSTEM_POWER_STATE_POWERING_OFF] ->
     dict_get power.GET_POWER_STATE_MAP v = None ∧
     power.get_power_state get_system task = (Ok None, [EvGetSystem (node task)])).
Proof.
  intros Hgs. split.
  - intros target timeout Hlock Hout.
    assert (dict_get power.SET_POWER_STATE_MAP target = None) as Hget.
    { rewrite SET_POWER_STATE_MAP_get.
      destruct target; try done; exfalso; apply Hout; set_solver. }
    rewrite (set_power_state_outcome _ _ system Hlock Hgs), Hget.
    split; [done|].
    destruct (reset_system system None) as [[]|e].
    + by repeat split.
    + destruct e; repeat split; try done; eauto.
  - intros v Hread Hout.
    assert (dict_get power.GET_POWER_STATE_MAP v = None) as Hget.
    { rewrite GET_POWER_STATE_MAP_get.
      destruct v; try done; exfalso; apply Hout; set_solver. }
    split; [done|].
    by rewrite (get_power_state_outcome _ _ system Hgs), Hread, Hget.
Qed.

Lemma unmapped_translations_yield_None_witness :
  power.set_power_state
    (fun _ => Ok (fake_system (sushy.SYSTEM_POWER_STATE_OTHER "unknown")))
    example_task (states.OTHER "soft power off") None =
    (Ok (), [EvGetSystem example_node; EvResetSystem None]) ∧
  power.get_power_state
    (fun _ => Ok (fake_system (sushy.SYSTEM_POWER_STATE_OTHER "unknown")))
    example_task = (Ok None, [EvGetSystem example_node]).
Proof.
  destruct (unmapped_translations_yield_None
              (fun _ => Ok (fake_system (sushy.SYSTEM_POWER_STATE_OTHER "unknown")))
              example_task
              (fake_system (sushy.SYSTEM_POWER_STATE_OTHER "unknown"))
              eq_refl) as [Hset Hget].
  split.
  - apply (Hset (states.OTHER "soft power off") None eq_refl); [|reflexivity].
    rewrite !elem_of_cons, elem_of_nil. intros [|[|[|[]]]]; discriminate.
  - apply (Hget (sushy.SYSTEM_POWER_STATE_OTHER "unknown") eq_refl).
    rewrite !elem_of_cons, elem_of_nil. intros [|[|[|[|[]]]]]; discriminate.
Defined.

(** C9: whatever the task and its node, [get_supported_power_states] returns
    the list [POWER_ON; POWER_OFF; REBOOT], in that order, and calls
    nothing. *)
Theorem get_supported_power_states_list (task : Task) :
  power.get_supported_power_states task =
    (Ok [states.POWER_ON; states.POWER_OFF; states.REBOOT], []).
Proof. reflexivity. Qed.


(** ** The management adapter *)

Lemma BOOT_DEVICE_MAP_REV_get (device : boot_devices.t) :
  dict_get management.BOOT_DEVICE_MAP_REV device =
    match device with
    | boot_devices.PXE => Some sushy.BOOT_SOURCE_TARGET_PXE
    | boot_devices.DISK => Some sushy.BOOT_SOURCE_TARGET_HDD
    | boot_devices.CDROM => Some sushy.BOOT_SOURCE_TARGET_CD
    | boot_devices.BIOS => Some sushy.BOOT_SOURCE_TARGET_BIOS_SETUP
    | boot_devices.OTHER _ => None
    end.
Proof. by destruct device. Qed.

Lemma BOOT_DEVICE_MAP_get (t : sushy.boot_source_target) :
  dict_get management.BOOT_DEVICE_MAP t =
    match t with
    | sushy.BOOT_SOURCE_TARGET_PXE => Some boot_devices.PXE
    | sushy.BOOT_SOURCE_TARGET_HDD => Some boot_devices.DISK
    | sushy.BOOT_SOURCE_TARGET_CD => Some boot_devices.CDROM
    | sushy.BOOT_SOURCE_TARGET_BIOS_SETUP => Some boot_devices.BIOS
    | sushy.BOOT_SOURCE_TARGET_OTHER _ => None
    end.
Proof. by destruct t. Qed.

(** The two boot-device tables are inverse to each other. *)
Lemma BOOT_DEVICE_MAP_inverse (device : boot_devices.t) (t : sushy.boot_source_target) :
  dict_get management.BOOT_DEVICE_MAP t = Some device ↔
  dict_get management.BOOT_DEVICE_MAP_REV device = Some t.
Proof.
  rewrite BOOT_DEVICE_MAP_get, BOOT_DEVICE_MAP_REV_get.
  destruct t, device; split; (done || by intros [= <-]).
Qed.

Lemma BOOT_DEVICE_PERSISTENT_MAP_REV_get (persistent : bool) :
  dict_get management.BOOT_DEVICE_PERSISTENT_MAP_REV persistent =
    Some (if persistent then sushy.BOOT_SOURCE_ENABLED_CONTINUOUS
          else sushy.BOOT_SOURCE_ENABLED_ONCE).
Proof. by destruct persistent. Qed.

Section management_outcomes.
Variable get_system : Node -> result System.
Variable task : Task.
Variable system : System.
Hypothesis exclusive : shared task = false.
Hypothesis connected : get_system (node task) = Ok system.

Lemma set_boot_device_outcome (device : boot_devices.t) (persistent : bool) :
  management.set_boot_device get_system task device persistent =
  let t := dict_get management.BOOT_DEVICE_MAP_REV device in
  let en := dict_get management.BOOT_DEVICE_PERSISTENT_MAP_REV persistent in
  match set_system_boot_source system t en with
  | Ok u => (Ok u, [EvGetSystem (node task); EvSetSystemBootSource t en])
  | Raise (SushyError m) =>
      (Raise (RedfishError (management.set_boot_device_error_msg (node task) m)),
       [EvGetSystem (node task); EvSetSystemBootSource t en;
        EvLogError (management.set_boot_device_error_msg (node task) m)])
  | Raise e => (Raise e, [EvGetSystem (node task); EvSetSystemBootSource t en])
  end.
Proof.
  unfold management.set_boot_device, require_exclusive_lock.
  rewrite exclusive, (get_system_then _ _ system) by done. cbn zeta.
  rewrite (guarded_boot_source_outcome system _ _
             (management.set_boot_device_error_msg (node task))).
  destruct (set_system_boot_source system _ _) as [u|e]; [done|].
  by destruct e.
Qed.

Lemma inject_nmi_outcome :
  management.inject_nmi get_system task =
  match reset_system system (Some sushy.RESET_NMI) with
  | Ok u => (Ok u, [EvGetSystem (node task); EvResetSystem (Some sushy.RESET_NMI)])
  | Raise (SushyError m) =>
      (Raise (RedfishError (management.inject_nmi_error_msg (node task) m)),
       [EvGetSystem (node task); EvResetSystem (Some sushy.RESET_NMI);
        EvLogError (management.inject_nmi_error_msg (node task) m)])
  | Raise e =>
      (Raise e, [EvGetSystem (node task); EvResetSystem (Some sushy.RESET_NMI)])
  end.
Proof.
  unfold management.inject_nmi, require_exclusive_lock.
  rewrite exclusive, (get_system_then _ _ system) by done. cbn zeta.
  rewrite (guarded_reset_outcome system _
             (management.inject_nmi_error_msg (node task))).
  destruct (reset_system system _) as [u|e]; [done|].
  by destruct e.
Qed.
End management_outcomes.

(** C6: for each of the four abstract boot devices, [set_boot_device], called
    under the exclusive lock on a node whose handle resolves, issues exactly
    one call on the handle: a boot-source write with the mapped target (PXE
    gives PXE, DISK gives HDD, CDROM gives CD, BIOS gives BIOS_SETUP) and the
    flag ONCE when [persistent] is [False], its default, or CONTINUOUS when
    [persistent] is [True]. *)
Theorem set_boot_device_issues_mapped_write (get_system : Node -> result System)
    (task : Task) (system : System) (device : boot_devices.t)
    (t : sushy.boot_source_target) (persistent : bool) :
  shared task = false ->
  get_system (node task) = Ok system ->
  (device, t) ∈ [(boot_devices.PXE, sushy.BOOT_SOURCE_TARGET_PXE);
                 (boot_devices.DISK, sushy.BOOT_SOURCE_TARGET_HDD);
                 (boot_devices.CDROM, sushy.BOOT_SOURCE_TARGET_CD);
                 (boot_devices.BIOS, sushy.BOOT_SOURCE_TARGET_BIOS_SETUP)] ->
  let en := if persistent then sushy.BOOT_SOURCE_ENABLED_CONTINUOUS
            else sushy.BOOT_SOURCE_ENABLED_ONCE in
  boot_source_calls
    (management.set_boot_device get_system task device persistent).2 =
    [(Some t, Some en)] ∧
  handle_calls (management.set_boot_device get_system task device persistent).2 =
    [EvSetSystemBootSource (Some t) (Some en)].
Proof.
  intros Hlock Hgs Hin en.
  rewrite (set_boot_device_outcome _ _ system Hlock Hgs).
  rewrite BOOT_DEVICE_PERSISTENT_MAP_REV_get. fold en.
  assert (dict_get management.BOOT_DEVICE_MAP_REV device = Some t) as ->.
  { rewrite !elem_of_cons, elem_of_nil in Hin.
    destruct Hin as [[= -> ->]|[[= -> ->]|[[= -> ->]|[[= -> ->]|[]]]]]; reflexivity. }
  cbn zeta.
  destruct (set_system_boot_source system (Some t) (Some en)) as [[]|e]; [done|].
  by destruct e.
Qed.

Lemma set_boot_device_issues_mapped_write_witness :
  boot_source_calls
    (management.set_boot_device
       (fun _ => Ok (fake_system sushy.SYSTEM_POWER_STATE_ON))
       example_task boot_devices.DISK false).2 =
    [(Some sushy.BOOT_SOURCE_TARGET_HDD, Some sushy.BOOT_SOURCE_ENABLED_ONCE)] ∧
  boot_source_calls
    (management.set_boot_device
       (fun _ => Ok (fake_system sushy.SYSTEM_POWER_STATE_ON))
       example_task boot_devices.PXE true).2 =
    [(Some sushy.BOOT_SOURCE_TARGET_PXE, Some sushy.BOOT_SOURCE_ENABLED_CONTINUOUS)].
Proof.
  split.
  - apply (set_boot_device_issues_mapped_write _ example_task
             (fake_system sushy.SYSTEM_POWER_STATE_ON)
             boot_devices.DISK sushy.BOOT_SOURCE_TARGET_HDD false);
      [reflexivity | reflexivity |].
    apply list_elem_of_further, list_elem_of_here.
  - apply (set_boot_device_issues_mapped_write _ example_task
             (fake_system sushy.SYSTEM_POWER_STATE_ON)
             boot_devices.PXE sushy.BOOT_SOURCE_TARGET_PXE true);
      [reflexivity | reflexivity |].
    apply list_elem_of_here.
Defined.

(** C7: whatever boot attribute the handle reports, [get_boot_device] (handle
    resolved) returns the pair of the abstract device that the boot-device
    table sends to the reported target, if there is one, and of a persistence
    flag that is [True] exactly when the reported enabled flag is CONTINUOUS
    and [False] for every other value. *)
Theorem get_boot_device_reverse_translates (get_system : Node -> result System)
    (task : Task) (system : System) (b : Boot) :
  get_system (node task) = Ok system ->
  boot system = Ok b ->
  ∃ (device : option boot_devices.t) (persistent : bool),
    management.get_boot_device get_system task =
      (Ok (device, persistent), [EvGetSystem (node task)]) ∧
    (∀ d, device = Some d ↔
          dict_get management.BOOT_DEVICE_MAP_REV d = Some (target b)) ∧
    (persistent = true ↔ enabled b = sushy.BOOT_SOURCE_ENABLED_CONTINUOUS) ∧
    (persistent = false ↔ enabled b ≠ sushy.BOOT_SOURCE_ENABLED_CONTINUOUS).
Proof.
  intros Hgs Hread.
  exists (dict_get management.BOOT_DEVICE_MAP (target b)),
         (bool_decide (enabled b = sushy.BOOT_SOURCE_ENABLED_CONTINUOUS)).
  split; [|split; [|split]].
  - unfold management.get_boot_device.
    rewrite (get_system_then _ _ system) by done. by rewrite Hread.
  - intros d. apply BOOT_DEVICE_MAP_inverse.
  - apply bool_decide_eq_true.
  - apply bool_decide_eq_false.
Qed.

Lemma get_boot_device_reverse_translates_witness :
  ∃ (device : option boot_devices.t) (persistent : bool),
    management.get_boot_device
      (fun _ => Ok (fake_system sushy.SYSTEM_POWER_STATE_ON)) example_task =
      (Ok (device, persistent), [EvGetSystem example_node]) ∧
    (∀ d, device = Some d ↔
          dict_get management.BOOT_DEVICE_MAP_REV d =
            Some sushy.BOOT_SOURCE_TARGET_PXE) ∧
    (persistent = true ↔
       sushy.BOOT_SOURCE_ENABLED_CONTINUOUS = sushy.BOOT_SOURCE_ENABLED_CONTINUOUS) ∧
    (persistent = false ↔
       sushy.BOOT_SOURCE_ENABLED_CONTINUOUS ≠ sushy.BOOT_SOURCE_ENABLED_CONTINUOUS).
Proof.
  apply (get_boot_device_reverse_translates
           (fun _ => Ok (fake_system sushy.SYSTEM_POWER_STATE_ON))
           example_task (fake_system sushy.SYSTEM_POWER_STATE_ON)
           example_boot); reflexivity.
Defined.

(** ** Vendor failures *)

Lemma reboot_read_fails (get_system : Node -> result System) (task : Task)
    (system : System) (e : exn) (timeout : option nat) :
  shared task = false ->
  get_system (node task) = Ok system ->
  power_state system = Raise e ->
  power.reboot get_system task timeout = (Raise e, [EvGetSystem (node task)]).
Proof.
  intros Hlock Hgs Hread.
  unfold power.reboot, require_exclusive_lock.
  rewrite Hlock, (get_system_then _ _ system) by done.
  by rewrite Hread.
Qed.

(** C5: when the command issued by [set_power_state], [reboot],
    [set_boot_device] or [inject_nmi] (called under the exclusive lock, handle
    resolved) fails with a vendor error, the method raises one [RedfishError],
    logged once, and the handle has received exactly one call: the failed
    command with its translated arguments. *)
Theorem vendor_failure_raises_once (get_system : Node -> result System)
    (task : Task) (system : System) (m : string) :
  shared task = false ->
  get_system (node task) = Ok system ->
  (∀ (target : states.t) (timeout : option nat),
     let value := dict_get power.SET_POWER_STATE_MAP target in
     let error := power.set_power_state_error_msg (node task) m in
     reset_system system value = Raise (SushyError m) ->
     power.set_power_state get_system task target timeout =
       (Raise (RedfishError error),
        [EvGetSystem (node task); EvResetSystem value; EvLogError error]) ∧
     handle_calls (power.set_power_state get_system task target timeout).2 =
       [EvResetSystem value]) ∧
  (∀ (v : sushy.power_state) (timeout : option nat),
     let value := match v with
                  | sushy.SYSTEM_POWER_STATE_ON => Some sushy.RESET_FORCE_RESTART
                  | sushy.SYSTEM_POWER_STATE_POWERING_ON => Some sushy.RESET_FORCE_RESTART
                  | _ => Some sushy.RESET_ON
                  end in
     let error := power.reboot_error_msg (node task) m in
     power_state system = Ok v ->
     reset_system system value = Raise (SushyError m) ->
     power.reboot get_system task timeout =
       (Raise (RedfishError error),
        [EvGetSystem (node task); EvResetSystem value; EvLogError error]) ∧
     handle_calls (power.reboot get_system task timeout).2 = [EvResetSystem value]) ∧
  (∀ (device : boot_devices.t) (persistent : bool),
     let t := dict_get management.BOOT_DEVICE_MAP_REV device in
     let en := dict_get management.BOOT_DEVICE_PERSISTENT_MAP_REV persistent in
     let error := management.set_boot_device_error_msg (node task) m in
     set_system_boot_source system t en = Raise (SushyError m) ->
     management.set_boot_device get_system task device persistent =
       (Raise (RedfishError error),
        [EvGetSystem (node task); EvSetSystemBootSource t en; EvLogError error]) ∧
     handle_calls (management.set_boot_device get_system task device persistent).2 =
       [EvSetSystemBootSource t en]) ∧
  (let value := Some sushy.RESET_NMI in
   let error := management.inject_nmi_error_msg (node task) m in
   reset_system system value = Raise (SushyError m) ->
   management.inject_nmi get_system task =
     (Raise (RedfishError error),
      [EvGetSystem (node task); EvResetSystem value; EvLogError error]) ∧
   handle_calls (management.inject_nmi get_system task).2 = [EvResetSystem value]).
Proof.
  intros Hlock Hgs. split; [|split; [|split]].
  - intros target timeout value error Hfail.
    rewrite (set_power_state_outcome _ _ system Hlock Hgs).
    fold value. by rewrite Hfail.
  - intros v timeout value error Hread Hfail.
    rewrite (reboot_outcome _ _ system Hlock Hgs v timeout Hread).
    cbn zeta.
    assert (Some match v with
                 | sushy.SYSTEM_POWER_STATE_ON => sushy.RESET_FORCE_RESTART
                 | sushy.SYSTEM_POWER_STATE_POWERING_ON => sushy.RESET_FORCE_RESTART
                 | _ => sushy.RESET_ON
                 end = value) as -> by (subst value; by destruct v).
    by rewrite Hfail.
  - intros device persistent t en error Hfail.
    rewrite (set_boot_device_outcome _ _ system Hlock Hgs).
    fold t en. cbn zeta. by rewrite Hfail.
  - intros value error Hfail.
    rewrite (inject_nmi_outcome _ _ system Hlock Hgs).
    fold value. by rewrite Hfail.
Qed.

Lemma vendor_failure_raises_once_witness :
  power.set_power_state
    (fun _ => Ok (failing_system sushy.SYSTEM_POWER_STATE_ON "HTTP 500"))
    example_task states.POWER_ON None =
    (Raise (RedfishError (power.set_power_state_error_msg example_node "HTTP 500")),
     [EvGetSystem example_node; EvResetSystem (Some sushy.RESET_ON);
      EvLogError (power.set_power_state_error_msg example_node "HTTP 500")]) ∧
  handle_calls
    (power.reboot
       (fun _ => Ok (failing_system sushy.SYSTEM_POWER_STATE_ON "HTTP 500"))
       example_task None).2 = [EvResetSystem (Some sushy.RESET_FORCE_RESTART)] ∧
  handle_calls
    (management.set_boot_device
       (fun _ => Ok (failing_system sushy.SYSTEM_POWER_STATE_ON "HTTP 500"))
       example_task boot_devices.PXE false).2 =
    [EvSetSystemBootSource (Some sushy.BOOT_SOURCE_TARGET_PXE)
       (Some sushy.BOOT_SOURCE_ENABLED_ONCE)] ∧
  handle_calls
    (management.inject_nmi
       (fun _ => Ok (failing_system sushy.SYSTEM_POWER_STATE_ON "HTTP 500"))
       example_task).2 = [EvResetSystem (Some sushy.RESET_NMI)].
Proof.
  destruct (vendor_failure_raises_once
              (fun _ => Ok (failing_system sushy.SYSTEM_POWER_STATE_ON "HTTP 500"))
              example_task
              (failing_system sushy.SYSTEM_POWER_STATE_ON "HTTP 500")
              "HTTP 500" eq_refl eq_refl)
    as (Hset & Hreboot & Hboot & Hnmi).
  split; [|split; [|split]].
  - apply (Hset states.POWER_ON None). reflexivity.
  - apply (Hreboot sushy.SYSTEM_POWER_STATE_ON None); reflexivity.
  - apply (Hboot boot_devices.PXE false). reflexivity.
  - apply Hnmi. reflexivity.
Defined.

(** A vendor error raised by the power-state read is outside the guarded
    block of [get_power_state] and of [reboot]: on a handle whose read raises
    it, both raise the vendor error itself. *)
Lemma power_state_read_error_unguarded :
  power.get_power_state (fun _ => Ok (unreadable_system "HTTP 500")) example_task =
    (Raise (SushyError "HTTP 500"), [EvGetSystem example_node]) ∧
  power.reboot (fun _ => Ok (unreadable_system "HTTP 500")) example_task None =
    (Raise (SushyError "HTTP 500"), [EvGetSystem example_node]).
Proof. split; reflexivity. Qed.

(** ** The context of a normalized error *)

(** The context-keeping methods return, raise and record exactly what the
    methods of the two adapters do. *)
Lemma chaining_forget (get_system : Node -> result System) (task : Task)
    (target : states.t) (device : boot_devices.t) (persistent : bool)
    (timeout : option nat) :
  chaining.forget (chaining.set_power_state get_system task target timeout) =
    power.set_power_state get_system task target timeout ∧
  chaining.forget (chaining.reboot get_system task timeout) =
    power.reboot get_system task timeout ∧
  chaining.forget (chaining.set_boot_device get_system task device persistent) =
    management.set_boot_device get_system task device persistent ∧
  chaining.forget (chaining.inject_nmi get_system task) =
    management.inject_nmi get_system task.
Proof.
  unfold chaining.set_power_state, chaining.reboot, chaining.set_boot_device,
    chaining.inject_nmi, power.set_power_state, power.reboot,
    management.set_boot_device, management.inject_nmi,
    chaining.require_exclusive_lock, require_exclusive_lock,
    chaining.redfish_utils_get_system, power.redfish_utils_get_system,
    chaining.call_reset_system, call_reset_system,
    chaining.call_set_system_boot_source, call_set_system_boot_source.
  destruct (shared task); [done|].
  destruct (get_system (node task)) as [system|e]; [|done].
  cbn.
  split; [|split; [|split]].
  - by destruct (reset_system system _) as [u|[]].
  - destruct (power_state system) as [v|e]; [|done]. cbn.
    case_decide; by destruct (reset_system system _) as [u|[]].
  - by destruct (set_system_boot_source system _ _) as [u|[]].
  - by destruct (reset_system system _) as [u|[]].
Qed.

Section chaining_outcomes.
Variable get_system : Node -> result System.
Variable task : Task.
Variable system : System.
Hypothesis exclusive : shared task = false.
Hypothesis connected : get_system (node task) = Ok system.


End chaining_outcomes.




(** ** [get_properties] *)

Section properties.
Variable common : loc.
Variable props : list (string * string).

(** The dictionary returned is a new object holding the items of the table. *)
Lemma get_properties_copies (h : gmap loc (list (string * string))) :
  h !! common = Some props ->
  power.get_properties common h =
    Some (fresh (dom h), <[fresh (dom h) := props]> h) ∧
  h !! fresh (dom h) = None ∧
  fresh (dom h) ≠ common.
Proof.
  intros Hc. unfold power.get_properties, alloc, dict_copy. rewrite Hc.
  pose proof (is_fresh (dom h)) as Hfresh.
  split; [done|]. split.
  - by apply not_elem_of_dom.
  - intros Heq. apply Hfresh. rewrite Heq. apply elem_of_dom. eauto.
Qed.

(** A step of a caller keeps the table as it is, and keeps the dictionaries
    handed out distinct from the table. *)
Lemma client_step_run_table (s : client_step)
    (st : gmap loc (list (string * string)) * list loc) :
  st.1 !! common = Some props ->
  (∀ l, l ∈ st.2 -> l ≠ common ∧ is_Some (st.1 !! l)) ->
  ∃ st', client_step_run common s st = Some st' ∧
         st'.1 !! common = Some props ∧
         (∀ l, l ∈ st'.2 -> l ≠ common ∧ is_Some (st'.1 !! l)).
Proof.
  intros Hc Hret. destruct st as [h returned]; cbn in *.
  destruct s as [|i f]; cbn.
  - destruct (get_properties_copies h Hc) as (-> & Hnew & Hne). cbn.
    eexists; split; [done|]. cbn. split.
    + by rewrite lookup_insert_ne.
    + intros l [Hl| ->%list_elem_of_singleton]%elem_of_app.
      * destruct (Hret l Hl) as [? [d Hd]]. split; [done|].
        rewrite lookup_insert_ne by congruence. eauto.
      * split; [done|]. rewrite lookup_insert_eq. eauto.
  - destruct (returned !! i) as [l|] eqn:Hi.
    + destruct (Hret l) as [Hne _]; [by eapply list_elem_of_lookup_2|].
      eexists; split; [done|]. cbn. unfold mutate. split.
      * by rewrite lookup_alter_ne.
      * intros l' Hl'. destruct (Hret l' Hl') as [? Hsome]. split; [done|].
        rewrite lookup_alter. case_decide; [|done].
        subst l'. by apply fmap_is_Some.
    + eexists; split; [done|]. by cbn.
Qed.

Lemma client_run_table (steps : list client_step)
    (st : gmap loc (list (string * string)) * list loc) :
  st.1 !! common = Some props ->
  (∀ l, l ∈ st.2 -> l ≠ common ∧ is_Some (st.1 !! l)) ->
  ∃ st', client_run common steps st = Some st' ∧
         st'.1 !! common = Some props ∧
         (∀ l, l ∈ st'.2 -> l ≠ common ∧ is_Some (st'.1 !! l)).
Proof.
  revert st. induction steps as [|s steps IH]; intros st Hc Hret; cbn.
  - by exists st.
  - destruct (client_step_run_table s st Hc Hret) as (st1 & -> & Hc1 & Hret1). cbn.
    by apply IH.
Qed.
End properties.

(** C10: [get_properties] returns a new dictionary holding the items of the
    common-properties table. Whatever calls to [get_properties] and in-place
    updates of the dictionaries they returned came before, the table still
    holds its items, and the next call returns yet another new dictionary,
    distinct from the table and from every dictionary returned so far,
    holding those same items. *)
Theorem get_properties_returns_fresh_copy (common : loc)
    (props : list (string * string)) (h : gmap loc (list (string * string)))
    (steps : list client_step) :
  h !! common = Some props ->
  ∃ (h' : gmap loc (list (string * string))) (returned : list loc),
    client_run common steps (h, []) = Some (h', returned) ∧
    h' !! common = Some props ∧
    (common ∉ returned) ∧
    ∃ (l : loc) (h'' : gmap loc (list (string * string))),
      power.get_properties common h' = Some (l, h'') ∧
      h'' !! l = Some props ∧
      h'' !! common = Some props ∧
      l ≠ common ∧
      l ∉ returned.
Proof.
  intros Hc.
  destruct (client_run_table common props steps (h, []) Hc)
    as ([h' returned] & Hrun & Hc' & Hret); cbn in *.
  { intros l Hl. by apply elem_of_nil in Hl. }
  exists h', returned. split; [done|]. split; [done|]. split.
  { intros Hin. by destruct (Hret _ Hin). }
  destruct (get_properties_copies common props h' Hc') as (Hget & Hnew & Hne).
  eexists _, _. split; [exact Hget|]. split; [|split; [|split]].
  - by rewrite lookup_insert_eq.
  - by rewrite lookup_insert_ne.
  - done.
  - intros Hin. destruct (Hret _ Hin) as [_ [d Hd]]. congruence.
Qed.

Lemma get_properties_returns_fresh_copy_witness :
  ∃ (h' : gmap loc (list (string * string))) (returned : list loc),
    client_run 1%positive
      [CallGetProperties;
       MutateReturned 0 (fun d => dict_setitem d "redfish_address" "changed");
       MutateReturned 0 (fun _ => [])]
      ({[1%positive := example_properties]}, []) = Some (h', returned) ∧
    h' !! 1%positive = Some example_properties ∧
    (1%positive ∉ returned) ∧
    ∃ (l : loc) (h'' : gmap loc (list (string * string))),
      power.get_properties 1%positive h' = Some (l, h'') ∧
      h'' !! l = Some example_properties ∧
      h'' !! 1%positive = Some example_properties ∧
      l ≠ 1%positive ∧
      l ∉ returned.
Proof.
  apply (get_properties_returns_fresh_copy 1%positive example_properties
           {[1%positive := example_properties]}).
  reflexivity.
Defined.

(** * Further properties of the power adapter *)

(** ** Every path of a method *)

Lemma set_power_state_cases (get_system : Node -> result System) (task : Task)
    (target : states.t) (timeout : option nat) :
  power.set_power_state get_system task target timeout =
  if shared task then (Raise ExclusiveLockRequired, [])
  else match get_system (node task) with
       | Raise e => (Raise e, [EvGetSystem (node task)])
       | Ok system =>
           let value := dict_get power.SET_POWER_STATE_MAP target in
           match reset_system system value with
           | Ok u => (Ok u, [EvGetSystem (node task); EvResetSystem value])
           | Raise (SushyError m) =>
               (Raise (RedfishError (power.set_power_state_error_msg (node task) m)),
                [EvGetSystem (node task); EvResetSystem value;
                 EvLogError (power.set_power_state_error_msg (node task) m)])
           | Raise e => (Raise e, [EvGetSystem (node task); EvResetSystem value])
           end
       end.
Proof.
  destruct (shared task) eqn:Hlock.
  - by apply shared_lock_refused.
  - destruct (get_system (node task)) as [system|e] eqn:Hgs.
    + by apply set_power_state_outcome.
    + by apply connection_failure_surfaces.
Qed.

Lemma reboot_cases (get_system : Node -> result System) (task : Task)
    (timeout : option nat) :
  power.reboot get_system task timeout =
  if shared task then (Raise ExclusiveLockRequired, [])
  else match get_system (node task) with
       | Raise e => (Raise e, [EvGetSystem (node task)])
       | Ok system =>
           match power_state system with
           | Raise e => (Raise e, [EvGetSystem (node task)])
           | Ok v =>
               let value :=
                 Some match v with
                      | sushy.SYSTEM_POWER_STATE_ON => sushy.RESET_FORCE_RESTART
                      | sushy.SYSTEM_POWER_STATE_POWERING_ON => sushy.RESET_FORCE_RESTART
                      | _ => sushy.RESET_ON
                      end in
               match reset_system system value with
               | Ok u => (Ok u, [EvGetSystem (node task); EvResetSystem value])
               | Raise (SushyError m) =>
                   (Raise (RedfishError (power.reboot_error_msg (node task) m)),
                    [EvGetSystem (node task); EvResetSystem value;
                     EvLogError (power.reboot_error_msg (node task) m)])
               | Raise e => (Raise e, [EvGetSystem (node task); EvResetSystem value])
               end
           end
       end.
Proof.
  destruct (shared task) eqn:Hlock.
  - by apply (shared_lock_refused _ _ states.POWER_ON).
  - destruct (get_system (node task)) as [system|e] eqn:Hgs.
    + destruct (power_state system) as [v|e] eqn:Hread.
      * by apply reboot_outcome.
      * by apply (reboot_read_fails _ _ system).
    + by apply (connection_failure_surfaces _ _ _ states.POWER_ON).
Qed.

Lemma get_power_state_cases (get_system : Node -> result System) (task : Task) :
  power.get_power_state get_system task =
  match get_system (node task) with
  | Raise e => (Raise e, [EvGetSystem (node task)])
  | Ok system =>
      match power_state system with
      | Raise e => (Raise e, [EvGetSystem (node task)])
      | Ok v => (Ok (dict_get power.GET_POWER_STATE_MAP v), [EvGetSystem (node task)])
      end
  end.
Proof.
  destruct (get_system (node task)) as [system|e] eqn:Hgs.
  - rewrite (get_power_state_outcome _ _ system Hgs).
    by destruct (power_state system).
  - unfold power.get_power_state. by rewrite (get_system_fails _ _ e).
Qed.

(** ** Failures that are not vendor command failures *)

(** X1: a failure of the connection helper is not normalized: whatever
    exception [get_system] raises, a vendor error included, [get_power_state]
    raises that same exception, and so do [set_power_state] and [reboot]
    under the exclusive lock; no call reaches a handle and nothing is
    logged. *)
Theorem connection_failure_not_wrapped (get_system : Node -> result System)
    (task : Task) (e : exn) (target : states.t) (timeout : option nat) :
  get_system (node task) = Raise e ->
  power.get_power_state get_system task = (Raise e, [EvGetSystem (node task)]) ∧
  (shared task = false ->
   power.set_power_state get_system task target timeout =
     (Raise e, [EvGetSystem (node task)]) ∧
   power.reboot get_system task timeout = (Raise e, [EvGetSystem (node task)])).
Proof.
  intros Hgs. split.
  - by rewrite get_power_state_cases, Hgs.
  - intros Hlock. by rewrite set_power_state_cases, reboot_cases, Hlock, Hgs.
Qed.

Lemma connection_failure_not_wrapped_witness :
  power.get_power_state (fun _ => Raise (SushyError "unreachable")) example_task =
    (Raise (SushyError "unreachable"), [EvGetSystem example_node]) ∧
  (shared example_task = false ->
   power.set_power_state (fun _ => Raise (SushyError "unreachable"))
     example_task states.POWER_OFF None =
     (Raise (SushyError "unreachable"), [EvGetSystem example_node]) ∧
   power.reboot (fun _ => Raise (SushyError "unreachable")) example_task None =
     (Raise (SushyError "unreachable"), [EvGetSystem example_node])).
Proof.
  apply (connection_failure_not_wrapped (fun _ => Raise (SushyError "unreachable"))
           example_task (SushyError "unreachable") states.POWER_OFF None).
  reflexivity.
Defined.

(** X2: on a task whose lock is shared, [set_power_state] and [reboot] raise
    [ExclusiveLockRequired] before anything else happens: the handle is not
    even resolved. [get_power_state] carries no such guard and answers on a
    shared task what it answers on an exclusive one. *)
Theorem shared_lock_blocks_commands (get_system : Node -> result System)
    (task : Task) (target : states.t) (timeout : option nat) :
  shared task = true ->
  power.set_power_state get_system task target timeout =
    (Raise ExclusiveLockRequired, []) ∧
  power.reboot get_system task timeout = (Raise ExclusiveLockRequired, []) ∧
  power.get_power_state get_system task =
    power.get_power_state get_system {| node := node task; shared := false |}.
Proof.
  intros Hshared.
  rewrite set_power_state_cases, reboot_cases, Hshared.
  by rewrite !get_power_state_cases.
Qed.

Lemma shared_lock_blocks_commands_witness :
  power.set_power_state (fun _ => Ok (fake_system sushy.SYSTEM_POWER_STATE_ON))
    {| node := example_node; shared := true |} states.POWER_OFF None =
    (Raise ExclusiveLockRequired, []) ∧
  power.reboot (fun _ => Ok (fake_system sushy.SYSTEM_POWER_STATE_ON))
    {| node := example_node; shared := true |} None =
    (Raise ExclusiveLockRequired, []) ∧
  power.get_power_state (fun _ => Ok (fake_system sushy.SYSTEM_POWER_STATE_ON))
    {| node := example_node; shared := true |} =
    power.get_power_state (fun _ => Ok (fake_system sushy.SYSTEM_POWER_STATE_ON))
      {| node := example_node; shared := false |}.
Proof.
  apply (shared_lock_blocks_commands
           (fun _ => Ok (fake_system sushy.SYSTEM_POWER_STATE_ON))
           {| node := example_node; shared := true |} states.POWER_OFF None).
  reflexivity.
Defined.

(** X3: only vendor errors are normalized. When [reset_system] raises an
    exception that is not a [SushyError], [set_power_state] and [reboot]
    (exclusive lock, handle resolved) raise that very exception, after the one
    command call, and log nothing. *)
Theorem other_exceptions_pass_through (get_system : Node -> result System)
    (task : Task) (system : System) (e : exn) :
  shared task = false ->
  get_system (node task) = Ok system ->
  (∀ m, e ≠ SushyError m) ->
  (∀ (target : states.t) (timeout : option nat),
     reset_system system (dict_get power.SET_POWER_STATE_MAP target) = Raise e ->
     power.set_power_state get_system task target timeout =
       (Raise e, [EvGetSystem (node task);
                  EvResetSystem (dict_get power.SET_POWER_STATE_MAP target)])) ∧
  (∀ (v : sushy.power_state) (timeout : option nat),
     let value := Some match v with
                       | sushy.SYSTEM_POWER_STATE_ON => sushy.RESET_FORCE_RESTART
                       | sushy.SYSTEM_POWER_STATE_POWERING_ON => sushy.RESET_FORCE_RESTART
                       | _ => sushy.RESET_ON
                       end in
     power_state system = Ok v ->
     reset_system system value = Raise e ->
     power.reboot get_system task timeout =
       (Raise e, [EvGetSystem (node task); EvResetSystem value])).
Proof.
  intros Hlock Hgs Hother. split.
  - intros target timeout Hfail.
    rewrite set_power_state_cases, Hlock, Hgs. cbn zeta. rewrite Hfail.
    destruct e; try done. by destruct (Hother m).
  - intros v timeout value Hread Hfail.
    rewrite reboot_cases, Hlock, Hgs, Hread. cbn zeta. fold value. rewrite Hfail.
    destruct e; try done. by destruct (Hother m).
Qed.

Lemma other_exceptions_pass_through_witness :
  power.set_power_state
    (fun _ => Ok {| power_state := Ok sushy.SYSTEM_POWER_STATE_ON;
                    boot := Ok example_boot;
                    reset_system := fun _ => Raise (OtherException "TypeError");
                    set_system_boot_source := fun _ _ => Ok () |})
    example_task states.POWER_OFF None =
    (Raise (OtherException "TypeError"),
     [EvGetSystem example_node; EvResetSystem (Some sushy.RESET_FORCE_OFF)]) ∧
  power.reboot
    (fun _ => Ok {| power_state := Ok sushy.SYSTEM_POWER_STATE_ON;
                    boot := Ok example_boot;
                    reset_system := fun _ => Raise (OtherException "TypeError");
                    set_system_boot_source := fun _ _ => Ok () |})
    example_task None =
    (Raise (OtherException "TypeError"),
     [EvGetSystem example_node; EvResetSystem (Some sushy.RESET_FORCE_RESTART)]).
Proof.
  destruct (other_exceptions_pass_through
              (fun _ => Ok {| power_state := Ok sushy.SYSTEM_POWER_STATE_ON;
                              boot := Ok example_boot;
                              reset_system := fun _ => Raise (OtherException "TypeError");
                              set_system_boot_source := fun _ _ => Ok () |})
              example_task
              {| power_state := Ok sushy.SYSTEM_POWER_STATE_ON;
                 boot := Ok example_boot;
                 reset_system := fun _ => Raise (OtherException "TypeError");
                 set_system_boot_source := fun _ _ => Ok () |}
              (OtherException "TypeError") eq_refl eq_refl)
    as [Hset Hreboot].
  { intros m. discriminate. }
  split.
  - apply (Hset states.POWER_OFF None). reflexivity.
  - apply (Hreboot sushy.SYSTEM_POWER_STATE_ON None); reflexivity.
Defined.

(** ** What the methods never do *)

(** X4: whatever the lock, the connection helper and the handle answer,
    [reboot] makes at most one call on the handle, and that call is
    [reset_system] with RESET_ON or with RESET_FORCE_RESTART: it never sends
    RESET_FORCE_OFF, RESET_NMI or an untranslated [None]. *)
Theorem reboot_never_powers_off (get_system : Node -> result System)
    (task : Task) (timeout : option nat) :
  (reset_calls (power.reboot get_system task timeout).2 = [] ∨
   reset_calls (power.reboot get_system task timeout).2 = [Some sushy.RESET_ON] ∨
   reset_calls (power.reboot get_system task timeout).2 =
     [Some sushy.RESET_FORCE_RESTART]) ∧
  handle_calls (power.reboot get_system task timeout).2 =
    EvResetSystem <$> reset_calls (power.reboot get_system task timeout).2.
Proof.
  rewrite reboot_cases.
  destruct (shared task); [by auto|].
  destruct (get_system (node task)) as [system|e]; [|by auto].
  destruct (power_state system) as [v|e]; [|by auto].
  cbn zeta.
  destruct v; (destruct (reset_system system _) as [u|[]]; cbn; by auto).
Qed.

(** X5: whatever the lock, the connection helper and the handle answer,
    [set_power_state] makes at most one call on the handle, and that call is
    [reset_system] with the translation of the requested state; it never
    sends RESET_NMI. *)
Theorem set_power_state_at_most_one_call (get_system : Node -> result System)
    (task : Task) (target : states.t) (timeout : option nat) :
  (reset_calls (power.set_power_state get_system task target timeout).2 = [] ∨
   reset_calls (power.set_power_state get_system task target timeout).2 =
     [dict_get power.SET_POWER_STATE_MAP target]) ∧
  handle_calls (power.set_power_state get_system task target timeout).2 =
    EvResetSystem <$>
      reset_calls (power.set_power_state get_system task target timeout).2 ∧
  Some sushy.RESET_NMI ∉
    reset_calls (power.set_power_state get_system task target timeout).2.
Proof.
  assert (dict_get power.SET_POWER_STATE_MAP target ≠ Some sushy.RESET_NMI) as Hnmi.
  { rewrite SET_POWER_STATE_MAP_get. by destruct target. }
  rewrite set_power_state_cases.
  set (value := dict_get power.SET_POWER_STATE_MAP target) in *.
  assert (∀ tr, reset_calls tr = [] ∨ reset_calls tr = [value] ->
                Some sushy.RESET_NMI ∉ reset_calls tr) as Hnot.
  { intros tr [-> | ->]; [apply not_elem_of_nil|].
    rewrite list_elem_of_singleton. congruence. }
  destruct (shared task); [by auto|].
  destruct (get_system (node task)) as [system|e]; [|by auto].
  cbn zeta.
  destruct (reset_system system value) as [u|[]];
    (split; [|split]; [| |apply Hnot]; by auto).
Qed.

(** X6: [get_power_state] is read-only. Whatever the lock, the connection
    helper and the handle answer, it resolves the handle of the task's node
    once and does nothing else: no command reaches the handle and nothing is
    logged. *)
Theorem get_power_state_issues_no_command (get_system : Node -> result System)
    (task : Task) :
  (power.get_power_state get_system task).2 = [EvGetSystem (node task)] ∧
  handle_calls (power.get_power_state get_system task).2 = [].
Proof.
  rewrite get_power_state_cases.
  destruct (get_system (node task)) as [system|e]; [|done].
  by destruct (power_state system).
Qed.

(** X7: a power state returned by [get_power_state] is POWER_ON or POWER_OFF,
    never REBOOT or a state outside the adapter's vocabulary; in particular
    it is one of the states [get_supported_power_states] lists. *)
Theorem get_power_state_range (get_system : Node -> result System) (task : Task)
    (s : states.t) :
  (power.get_power_state get_system task).1 = Ok (Some s) ->
  (s = states.POWER_ON ∨ s = states.POWER_OFF) ∧
  ∃ supported : list states.t,
    power.get_supported_power_states task = (Ok supported, []) ∧ s ∈ supported.
Proof.
  rewrite get_power_state_cases.
  destruct (get_system (node task)) as [system|e]; [|done].
  destruct (power_state system) as [v|e]; [|done].
  cbn. rewrite GET_POWER_STATE_MAP_get. intros Hs.
  assert (s = states.POWER_ON ∨ s = states.POWER_OFF) as Hrange.
  { destruct v; simplify_eq; by auto. }
  split; [done|]. eexists. split; [reflexivity|].
  destruct Hrange as [-> | ->]; cbn; set_solver.
Qed.

Lemma get_power_state_range_witness :
  (states.POWER_ON = states.POWER_ON ∨ states.POWER_ON = states.POWER_OFF) ∧
  ∃ supported : list states.t,
    power.get_supported_power_states example_task = (Ok supported, []) ∧
    states.POWER_ON ∈ supported.
Proof.
  apply (get_power_state_range
           (fun _ => Ok (fake_system sushy.SYSTEM_POWER_STATE_POWERING_ON))
           example_task states.POWER_ON).
  reflexivity.
Defined.

(** ** How the methods fit together *)

(** X8: [reboot] does what [set_power_state] does for a target chosen from
    the answer of [get_power_state]: REBOOT when that answer is POWER_ON,
    POWER_ON for any other answer, [None] included. Under the exclusive lock
    both make the same calls on the handle, and one succeeds exactly when the
    other does. When the command fails with a vendor error, both log and
    raise one [RedfishError], each with its own text around the same node and
    the same vendor error; on every other answer of the command the two
    outcomes are identical. *)
Theorem reboot_as_set_power_state (get_system : Node -> result System)
    (task : Task) (s : option states.t) (timeout timeout' : option nat) :
  shared task = false ->
  (power.get_power_state get_system task).1 = Ok s ->
  let target := if decide (s = Some states.POWER_ON)
                then states.REBOOT else states.POWER_ON in
  handle_calls (power.reboot get_system task timeout).2 =
    handle_calls (power.set_power_state get_system task target timeout').2 ∧
  ((power.reboot get_system task timeout).1 = Ok () ↔
   (power.set_power_state get_system task target timeout').1 = Ok ()) ∧
  ((power.reboot get_system task timeout).1 = Ok () ->
   power.reboot get_system task timeout =
     power.set_power_state get_system task target timeout') ∧
  ∃ system : System,
    get_system (node task) = Ok system ∧
    match reset_system system (dict_get power.SET_POWER_STATE_MAP target) with
    | Raise (SushyError m) =>
        power.reboot get_system task timeout =
          (Raise (RedfishError (power.reboot_error_msg (node task) m)),
           [EvGetSystem (node task);
            EvResetSystem (dict_get power.SET_POWER_STATE_MAP target);
            EvLogError (power.reboot_error_msg (node task) m)]) ∧
        power.set_power_state get_system task target timeout' =
          (Raise (RedfishError (power.set_power_state_error_msg (node task) m)),
           [EvGetSystem (node task);
            EvResetSystem (dict_get power.SET_POWER_STATE_MAP target);
            EvLogError (power.set_power_state_error_msg (node task) m)])
    | _ =>
        power.reboot get_system task timeout =
          power.set_power_state get_system task target timeout'
    end.
Proof.
  intros Hlock Hget target. revert Hget. subst target.
  rewrite get_power_state_cases, reboot_cases, set_power_state_cases, Hlock.
  destruct (get_system (node task)) as [system|e] eqn:Hgs; [|done].
  destruct (power_state system) as [v|e]; [|done].
  rewrite GET_POWER_STATE_MAP_get.
  assert (∀ value : option sushy.reset,
            let r :=
              match reset_system system value with
              | Ok u => (Ok u, [EvGetSystem (node task); EvResetSystem value])
              | Raise (SushyError m) =>
                  (Raise (RedfishError (power.reboot_error_msg (node task) m)),
                   [EvGetSystem (node task); EvResetSystem value;
                    EvLogError (power.reboot_error_msg (node task) m)])
              | Raise e => (Raise e, [EvGetSystem (node task); EvResetSystem value])
              end in
            let p :=
              match reset_system system value with
              | Ok u => (Ok u, [EvGetSystem (node task); EvResetSystem value])
              | Raise (SushyError m) =>
                  (Raise (RedfishError (power.set_power_state_error_msg (node task) m)),
                   [EvGetSystem (node task); EvResetSystem value;
                    EvLogError (power.set_power_state_error_msg (node task) m)])
              | Raise e => (Raise e, [EvGetSystem (node task); EvResetSystem value])
              end in
            handle_calls r.2 = handle_calls p.2 ∧
            (r.1 = Ok () ↔ p.1 = Ok ()) ∧
            (r.1 = Ok () -> r = p) ∧
            ∃ system' : System,
              Ok system = Ok system' ∧
              match reset_system system' value with
              | Raise (SushyError m) =>
                  r = (Raise (RedfishError (power.reboot_error_msg (node task) m)),
                       [EvGetSystem (node task); EvResetSystem value;
                        EvLogError (power.reboot_error_msg (node task) m)]) ∧
                  p = (Raise (RedfishError
                                (power.set_power_state_error_msg (node task) m)),
                       [EvGetSystem (node task); EvResetSystem value;
                        EvLogError (power.set_power_state_error_msg (node task) m)])
              | _ => r = p
              end) as Hsame.
  { intros value r p. subst r p.
    destruct (reset_system system value) as [[]|e] eqn:Hreset.
    - repeat split; try done. exists system. by rewrite Hreset.
    - destruct e; (repeat split; try done); exists system; by rewrite Hreset. }
  destruct v; intros [= <-]; case_decide; try done;
    rewrite SET_POWER_STATE_MAP_get; apply Hsame.
Qed.

Lemma reboot_as_set_power_state_witness :
  handle_calls
    (power.reboot (fun _ => Ok (fake_system sushy.SYSTEM_POWER_STATE_POWERING_ON))
       example_task None).2 =
    handle_calls
      (power.set_power_state
         (fun _ => Ok (fake_system sushy.SYSTEM_POWER_STATE_POWERING_ON))
         example_task states.REBOOT (Some 30)).2.
Proof.
  apply (reboot_as_set_power_state
           (fun _ => Ok (fake_system sushy.SYSTEM_POWER_STATE_POWERING_ON))
           example_task (Some states.POWER_ON) None (Some 30)); reflexivity.
Defined.

(** X9: the states listed by [get_supported_power_states] are exactly those
    that [set_power_state] can translate: under the exclusive lock and with
    the handle resolved, the command sent for a listed state is an actual
    reset command, and the command sent for any other state is [None]. *)
Theorem supported_states_are_the_translated_ones
    (get_system : Node -> result System) (task : Task) (system : System)
    (target : states.t) (timeout : option nat) :
  shared task = false ->
  get_system (node task) = Ok system ->
  ∃ supported : list states.t,
    power.get_supported_power_states task = (Ok supported, []) ∧
    (target ∈ supported ↔
       ∃ cmd : sushy.reset,
         reset_calls (power.set_power_state get_system task target timeout).2 =
           [Some cmd]) ∧
    (target ∉ supported ↔
       reset_calls (power.set_power_state get_system task target timeout).2 =
         [None]).
Proof.
  intros Hlock Hgs. eexists. split; [reflexivity|].
  rewrite set_power_state_cases, Hlock, Hgs. cbn zeta.
  rewrite SET_POWER_STATE_MAP_get.
  assert (∀ value : option sushy.reset,
            reset_calls
              (match reset_system system value with
               | Ok u => (Ok u, [EvGetSystem (node task); EvResetSystem value])
               | Raise (SushyError m) =>
                   (Raise (RedfishError (power.set_power_state_error_msg (node task) m)),
                    [EvGetSystem (node task); EvResetSystem value;
                     EvLogError (power.set_power_state_error_msg (node task) m)])
               | Raise e => (Raise e, [EvGetSystem (node task); EvResetSystem value])
               end).2 = [value]) as Hcalls.
  { intros value. by destruct (reset_system system value) as [u|[]]. }
  rewrite Hcalls.
  change (dict_keys power.SET_POWER_STATE_MAP)
    with [states.POWER_ON; states.POWER_OFF; states.REBOOT].
  rewrite !elem_of_cons, elem_of_nil.
  destruct target; (split; split); intros Hx;
    first [ discriminate Hx
          | reflexivity
          | (exfalso; apply Hx; auto; fail)
          | (destruct Hx as [Hx|[Hx|[Hx|[]]]]; discriminate Hx)
          | (intros [Hy|[Hy|[Hy|[]]]]; discriminate Hy)
          | (destruct Hx as [cmd Hx]; discriminate Hx)
          | (eexists; reflexivity)
          | (auto; fail) ].
Qed.

Lemma supported_states_are_the_translated_ones_witness :
  ∃ supported : list states.t,
    power.get_supported_power_states example_task = (Ok supported, []) ∧
    (states.OTHER "soft rebooting" ∈ supported ↔
       ∃ cmd : sushy.reset,
         reset_calls
           (power.set_power_state
              (fun _ => Ok (fake_system sushy.SYSTEM_POWER_STATE_ON))
              example_task (states.OTHER "soft rebooting") None).2 = [Some cmd]) ∧
    (states.OTHER "soft rebooting" ∉ supported ↔
       reset_calls
         (power.set_power_state
            (fun _ => Ok (fake_system sushy.SYSTEM_POWER_STATE_ON))
            example_task (states.OTHER "soft rebooting") None).2 = [None]).
Proof.
  apply (supported_states_are_the_translated_ones
           (fun _ => Ok (fake_system sushy.SYSTEM_POWER_STATE_ON))
           example_task (fake_system sushy.SYSTEM_POWER_STATE_ON)
           (states.OTHER "soft rebooting") None); reflexivity.
Defined.

(** ** Outcomes and the error log *)

(** X10: an error logged by [set_power_state] or [reboot] is always raised
    too. Whatever the collaborators answer, if a message was logged then the
    method raised a [RedfishError] carrying that very message, and the message
    is the method's own text around the node's identifier and a vendor
    error. *)
Theorem logged_errors_are_raised (get_system : Node -> result System)
    (task : Task) (target : states.t) (timeout : option nat) (msg : string) :
  (EvLogError msg ∈ (power.set_power_state get_system task target timeout).2 ->
   (power.set_power_state get_system task target timeout).1 =
     Raise (RedfishError msg) ∧
   ∃ m, msg = power.set_power_state_error_msg (node task) m) ∧
  (EvLogError msg ∈ (power.reboot get_system task timeout).2 ->
   (power.reboot get_system task timeout).1 = Raise (RedfishError msg) ∧
   ∃ m, msg = power.reboot_error_msg (node task) m).
Proof.
  rewrite set_power_state_cases, reboot_cases.
  destruct (shared task).
  { cbn. rewrite elem_of_nil. tauto. }
  destruct (get_system (node task)) as [system|e].
  2:{ cbn. rewrite list_elem_of_singleton. split; intros [=]. }
  split.
  - cbn zeta.
    destruct (reset_system system _) as [u|[]]; cbn;
      rewrite !elem_of_cons, elem_of_nil;
      intros Hin; destruct_or!; simplify_eq; try done; eauto.
  - destruct (power_state system) as [v|e].
    2:{ cbn. rewrite list_elem_of_singleton. intros [=]. }
    cbn zeta.
    destruct (reset_system system _) as [u|[]]; cbn;
      rewrite !elem_of_cons, elem_of_nil;
      intros Hin; destruct_or!; simplify_eq; try done; eauto.
Qed.

Lemma logged_errors_are_raised_witness :
  (power.set_power_state
     (fun _ => Ok (failing_system sushy.SYSTEM_POWER_STATE_ON "HTTP 500"))
     example_task states.POWER_OFF None).1 =
    Raise (RedfishError (power.set_power_state_error_msg example_node "HTTP 500")) ∧
  (power.reboot
     (fun _ => Ok (failing_system sushy.SYSTEM_POWER_STATE_ON "HTTP 500"))
     example_task None).1 =
    Raise (RedfishError (power.reboot_error_msg example_node "HTTP 500")).
Proof.
  split.
  - apply (logged_errors_are_raised
             (fun _ => Ok (failing_system sushy.SYSTEM_POWER_STATE_ON "HTTP 500"))
             example_task states.POWER_OFF None
             (power.set_power_state_error_msg example_node "HTTP 500")).
    apply list_elem_of_further, list_elem_of_further, list_elem_of_here.
  - apply (logged_errors_are_raised
             (fun _ => Ok (failing_system sushy.SYSTEM_POWER_STATE_ON "HTTP 500"))
             example_task states.POWER_OFF None
             (power.reboot_error_msg example_node "HTTP 500")).
    apply list_elem_of_further, list_elem_of_further, list_elem_of_here.
Defined.

(** X11: [set_power_state] and [reboot] return normally only after their
    command went through: the lock was exclusive, the handle resolved (and,
    for [reboot], reported a power state), the one [reset_system] call with
    the translated command returned, and nothing was logged. *)
Theorem success_means_command_succeeded (get_system : Node -> result System)
    (task : Task) (target : states.t) (timeout : option nat) :
  ((power.set_power_state get_system task target timeout).1 = Ok () ->
   shared task = false ∧
   ∃ system : System,
     get_system (node task) = Ok system ∧
     reset_system system (dict_get power.SET_POWER_STATE_MAP target) = Ok () ∧
     (power.set_power_state get_system task target timeout).2 =
       [EvGetSystem (node task);
        EvResetSystem (dict_get power.SET_POWER_STATE_MAP target)]) ∧
  ((power.reboot get_system task timeout).1 = Ok () ->
   shared task = false ∧
   ∃ (system : System) (v : sushy.power_state),
     let value := Some match v with
                       | sushy.SYSTEM_POWER_STATE_ON => sushy.RESET_FORCE_RESTART
                       | sushy.SYSTEM_POWER_STATE_POWERING_ON => sushy.RESET_FORCE_RESTART
                       | _ => sushy.RESET_ON
                       end in
     get_system (node task) = Ok system ∧
     power_state system = Ok v ∧
     reset_system system value = Ok () ∧
     (power.reboot get_system task timeout).2 =
       [EvGetSystem (node task); EvResetSystem value]).
Proof.
  rewrite set_power_state_cases, reboot_cases.
  destruct (shared task); [by split|].
  destruct (get_system (node task)) as [system|e]; [|by split].
  split.
  - cbn zeta.
    destruct (reset_system system _) as [[]|[]] eqn:Hreset; try done.
    intros _. split; [done|]. by exists system.
  - destruct (power_state system) as [v|e] eqn:Hread; [|done].
    cbn zeta.
    destruct (reset_system system _) as [[]|[]] eqn:Hreset; try done.
    intros _. split; [done|]. by exists system, v.
Qed.

Lemma success_means_command_succeeded_witness :
  shared example_task = false ∧
  ∃ system : System,
    Ok (fake_system sushy.SYSTEM_POWER_STATE_OFF) = Ok system ∧
    reset_system system (dict_get power.SET_POWER_STATE_MAP states.POWER_ON) = Ok () ∧
    (power.set_power_state
       (fun _ => Ok (fake_system sushy.SYSTEM_POWER_STATE_OFF))
       example_task states.POWER_ON None).2 =
      [EvGetSystem (node example_task);
       EvResetSystem (dict_get power.SET_POWER_STATE_MAP states.POWER_ON)].
Proof.
  apply (success_means_command_succeeded
           (fun _ => Ok (fake_system sushy.SYSTEM_POWER_STATE_OFF))
           example_task states.POWER_ON None).
  reflexivity.
Defined.

(** ** More on [get_properties] *)

(** X12: two calls of [get_properties] return two distinct new dictionaries,
    each holding the items of the table. A call changes no object that
    existed before it, and updating the first dictionary in place leaves the
    second one as it was. *)
Theorem get_properties_calls_are_independent (common : loc)
    (props : list (string * string)) (h : gmap loc (list (string * string))) :
  h !! common = Some props ->
  ∃ (l1 l2 : loc) (h1 h2 : gmap loc (list (string * string))),
    power.get_properties common h = Some (l1, h1) ∧
    power.get_properties common h1 = Some (l2, h2) ∧
    l1 ≠ l2 ∧
    h !! l1 = None ∧
    h1 !! l2 = None ∧
    (∀ l, is_Some (h !! l) -> h1 !! l = h !! l) ∧
    (∀ l, is_Some (h1 !! l) -> h2 !! l = h1 !! l) ∧
    h2 !! l1 = Some props ∧
    h2 !! l2 = Some props ∧
    (∀ f, mutate l1 f h2 !! l2 = Some props ∧
          mutate l1 f h2 !! l1 = Some (f props) ∧
          mutate l1 f h2 !! common = Some props).
Proof.
  intros Hc.
  destruct (get_properties_copies common props h Hc) as (Hget1 & Hnew1 & Hne1).
  set (l1 := fresh (dom h)) in *. set (h1 := <[l1 := props]> h) in *.
  assert (h1 !! common = Some props) as Hc1.
  { subst h1. by rewrite lookup_insert_ne. }
  destruct (get_properties_copies common props h1 Hc1) as (Hget2 & Hnew2 & Hne2).
  set (l2 := fresh (dom h1)) in *. set (h2 := <[l2 := props]> h1) in *.
  assert (h1 !! l1 = Some props) as Hl1.
  { subst h1. by rewrite lookup_insert_eq. }
  assert (l1 ≠ l2) as Hne12 by congruence.
  exists l1, l2, h1, h2.
  split; [done|]. split; [done|]. split; [done|]. split; [done|]. split; [done|].
  split.
  { intros l [d Hd]. subst h1. rewrite lookup_insert_ne; [done|congruence]. }
  split.
  { intros l [d Hd]. subst h2. rewrite lookup_insert_ne; [done|congruence]. }
  assert (h2 !! l1 = Some props) as Hl1'.
  { subst h2. by rewrite lookup_insert_ne. }
  assert (h2 !! l2 = Some props) as Hl2'.
  { subst h2. by rewrite lookup_insert_eq. }
  assert (h2 !! common = Some props) as Hc2.
  { subst h2. by rewrite lookup_insert_ne. }
  split; [done|]. split; [done|].
  intros f. unfold mutate. split; [|split].
  - by rewrite lookup_alter_ne.
  - by rewrite lookup_alter_eq, Hl1'.
  - by rewrite lookup_alter_ne.
Qed.

Lemma get_properties_calls_are_independent_witness :
  ∃ (l1 l2 : loc) (h1 h2 : gmap loc (list (string * string))),
    power.get_properties 1%positive {[1%positive := example_properties]} =
      Some (l1, h1) ∧
    power.get_properties 1%positive h1 = Some (l2, h2) ∧
    l1 ≠ l2 ∧
    ({[1%positive := example_properties]} : gmap loc (list (string * string)))
      !! l1 = None ∧
    h1 !! l2 = None ∧
    (∀ l, is_Some
            (({[1%positive := example_properties]}
              : gmap loc (list (string * string))) !! l) ->
          h1 !! l =
            ({[1%positive := example_properties]}
             : gmap loc (list (string * string))) !! l) ∧
    (∀ l, is_Some (h1 !! l) -> h2 !! l = h1 !! l) ∧
    h2 !! l1 = Some example_properties ∧
    h2 !! l2 = Some example_properties ∧
    (∀ f, mutate l1 f h2 !! l2 = Some example_properties ∧
          mutate l1 f h2 !! l1 = Some (f example_properties) ∧
          mutate l1 f h2 !! 1%positive = Some example_properties).
Proof.
  apply (get_properties_calls_are_independent 1%positive example_properties
           {[1%positive := example_properties]}).
  reflexivity.
Defined.

(** X13: the dictionary returned by [get_properties] is a snapshot. An
    in-place update of the table made after the call does not show through
    the dictionary already returned, while the next call returns the updated
    items. *)
Theorem get_properties_is_a_snapshot (common : loc)
    (props : list (string * string)) (h : gmap loc (list (string * string)))
    (f : list (string * string) -> list (string * string)) :
  h !! common = Some props ->
  ∃ (l l' : loc) (h1 h2 : gmap loc (list (string * string))),
    power.get_properties common h = Some (l, h1) ∧
    mutate common f h1 !! l = Some props ∧
    mutate common f h1 !! common = Some (f props) ∧
    power.get_properties common (mutate common f h1) = Some (l', h2) ∧
    h2 !! l' = Some (f props) ∧
    h2 !! l = Some props ∧
    l' ≠ l.
Proof.
  intros Hc.
  destruct (get_properties_copies common props h Hc) as (Hget1 & Hnew1 & Hne1).
  set (l := fresh (dom h)) in *. set (h1 := <[l := props]> h) in *.
  assert (mutate common f h1 !! l = Some props) as Hl.
  { unfold mutate. rewrite lookup_alter_ne by done.
    subst h1. by rewrite lookup_insert_eq. }
  assert (mutate common f h1 !! common = Some (f props)) as Hc1.
  { unfold mutate. rewrite lookup_alter_eq.
    subst h1. by rewrite lookup_insert_ne, Hc. }
  destruct (get_properties_copies common (f props) (mutate common f h1) Hc1)
    as (Hget2 & Hnew2 & Hne2).
  set (l' := fresh (dom (mutate common f h1))) in *.
  assert (l' ≠ l) as Hne by congruence.
  exists l, l', h1, (<[l' := f props]> (mutate common f h1)).
  split; [done|]. split; [done|]. split; [done|]. split; [done|].
  split; [by rewrite lookup_insert_eq|].
  split; [by rewrite lookup_insert_ne|done].
Qed.

Lemma get_properties_is_a_snapshot_witness :
  ∃ (l l' : loc) (h1 h2 : gmap loc (list (string * string))),
    power.get_properties 1%positive {[1%positive := example_properties]} =
      Some (l, h1) ∧
    mutate 1%positive (fun _ => []) h1 !! l = Some example_properties ∧
    mutate 1%positive (fun _ => []) h1 !! 1%positive = Some [] ∧
    power.get_properties 1%positive (mutate 1%positive (fun _ => []) h1) =
      Some (l', h2) ∧
    h2 !! l' = Some [] ∧
    h2 !! l = Some example_properties ∧
    l' ≠ l.
Proof.
  apply (get_properties_is_a_snapshot 1%positive example_properties
           {[1%positive := example_properties]} (fun _ => [])).
  reflexivity.
Defined.

(** ** Resolving the handle, once *)

(** X14: under the exclusive lock, and whatever the connection helper and the
    handle answer, [set_power_state] and [reboot] ask the connection helper
    for the handle exactly once, for the task's own node, before they do
    anything else. *)
Theorem handle_resolved_once (get_system : Node -> result System)
    (task : Task) (target : states.t) (timeout : option nat) :
  shared task = false ->
  (∃ rest : list Event,
     (power.set_power_state get_system task target timeout).2 =
       EvGetSystem (node task) :: rest ∧
     ∀ n, EvGetSystem n ∉ rest) ∧
  (∃ rest : list Event,
     (power.reboot get_system task timeout).2 = EvGetSystem (node task) :: rest ∧
     ∀ n, EvGetSystem n ∉ rest).
Proof.
  intros Hlock. rewrite set_power_state_cases, reboot_cases, Hlock.
  destruct (get_system (node task)) as [system|e].
  2:{ split; (eexists; split; [reflexivity|]); intros n; apply not_elem_of_nil. }
  split.
  - cbn zeta.
    destruct (reset_system system _) as [u|[]];
      (eexists; split; [reflexivity|]); intros n;
      rewrite !elem_of_cons, elem_of_nil; intros Hin; destruct_or!;
      by simplify_eq.
  - destruct (power_state system) as [v|e].
    2:{ eexists; split; [reflexivity|]. intros n. apply not_elem_of_nil. }
    cbn zeta.
    destruct (reset_system system _) as [u|[]];
      (eexists; split; [reflexivity|]); intros n;
      rewrite !elem_of_cons, elem_of_nil; intros Hin; destruct_or!;
      by simplify_eq.
Qed.

Lemma handle_resolved_once_witness :
  (∃ rest : list Event,
     (power.set_power_state
        (fun _ => Ok (failing_system sushy.SYSTEM_POWER_STATE_ON "HTTP 500"))
        example_task states.REBOOT None).2 = EvGetSystem example_node :: rest ∧
     ∀ n, EvGetSystem n ∉ rest) ∧
  (∃ rest : list Event,
     (power.reboot
        (fun _ => Ok (failing_system sushy.SYSTEM_POWER_STATE_ON "HTTP 500"))
        example_task None).2 = EvGetSystem example_node :: rest ∧
     ∀ n, EvGetSystem n ∉ rest).
Proof.
  apply (handle_resolved_once
           (fun _ => Ok (failing_system sushy.SYSTEM_POWER_STATE_ON "HTTP 500"))
           example_task states.REBOOT None).
  reflexivity.
Defined.
